(** * Citrakara: commission listings and proposal negotiation

    A shallow embedding of the two service modules that carry the business
    logic of the marketplace,

      - [src/lib/services/commissionListing.service.ts]  (module [Listing])
      - [src/lib/services/proposal.service.ts]           (module [Proposal])

    together with the properties the specification states about them.

    Conventions.  A JavaScript [number] that holds a price, a percentage, an
    identifier or a slot count is taken to be a whole number and is modelled
    in [Z].  The numbers of the source are doubles: its sums are those of
    [Z] as long as the amounts added are whole and stay within 2^53 in
    magnitude, and the statements that depend on a sum say so
    ([ListingSpec.exactAmounts], [ListingSpec.exactPercents]); what the
    source computes on percentages that are not whole is modelled on
    doubles ([Listing.percentSumDouble]).  A [Date] is modelled by its time
    value (milliseconds since the epoch), also in [Z]; relational operators
    on dates compare time values, as they do in the source.  A string is
    held as its UTF-8 bytes.  An optional or nullable field is an [option].
    A function that may [throw] returns a [result]; the thrown value is an
    [error]. *)

From Stdlib Require Import ZArith List String Ascii Bool Lia Floats.
From stdpp Require Import gmap strings.
Import ListNotations.

Local Open Scope string_scope.
Local Open Scope Z_scope.

(** ** Errors and the error monad *)

(** The services throw two kinds of values: [HttpError(message, status)]
    (commissionListing.service.ts, lines 32-40; the status defaults to 400)
    and the built-in [Error(message)]. *)
Inductive error : Type :=
| HttpError (message : string) (status : Z)
| Error (message : string).

Definition HttpError400 (message : string) : error := HttpError message 400.

Inductive result (A : Type) : Type :=
| Ok (a : A)
| Err (e : error).
Arguments Ok {A} a.
Arguments Err {A} e.

Definition bind {A B : Type} (m : result A) (k : A -> result B) : result B :=
  match m with
  | Ok a => k a
  | Err e => Err e
  end.

Notation "'try' x <- m 'in' k" := (bind m (fun x => k))
  (at level 10, x name, m at level 100, k at level 200).
Notation "'check' m 'in' k" := (bind m (fun _ => k))
  (at level 10, m at level 100, k at level 200).

(** [if (cond) throw e] *)
Definition throw_if (cond : bool) (e : error) : result unit :=
  if cond then Err e else Ok tt.

Definition is_ok {A : Type} (m : result A) : bool :=
  match m with Ok _ => true | Err _ => false end.

(** Modelled from the spec: the error taxonomy of section 7.  The module that
    turns thrown values into responses ([@/lib/utils/errorHandler]) lies
    outside the two services, which only throw [HttpError] with a status
    code and [Error] with a message.  The classes below are the five
    the specification names, attached to the thrown values by status code
    and, for plain [Error]s and status 400, by the message. *)
Inductive ErrorClass : Type :=
| ValidationError
| AuthorizationError
| NotFoundError
| StateError
| ConfigurationError.

(** Modelled from the spec: the messages with which the services signal an
    action attempted from an illegal status ([StateError]). *)
Definition state_messages : list string :=
  [ "Proposal is not awaiting artist response";
    "Proposal is not awaiting client response";
    "Proposal must be in accepted status to finalize";
    "Can only edit proposals in pendingArtist status" ].

(** Modelled from the spec: the messages with which the services signal an
    actor who is not the proposal's client or artist, or not the listing's
    artist ([AuthorizationError]). *)
Definition authorization_messages : list string :=
  [ "Not authorized to respond to this proposal";
    "Not authorized to edit this proposal";
    "Not authorized to view this proposal";
    "Not authorized to update this listing" ].

(** Modelled from the spec: the messages with which the services signal an
    id that does not resolve ([NotFoundError]). *)
Definition not_found_messages : list string :=
  [ "Proposal not found"; "Listing not found"; "User not found";
    "Associated listing not found" ].

Definition mem_string (s : string) (l : list string) : bool :=
  existsb (String.eqb s) l.

(** Modelled from the spec: the class of a message; what is none of the
    above is malformed or missing input ([ValidationError]). *)
Definition classify_message (m : string) : ErrorClass :=
  if mem_string m state_messages then StateError
  else if mem_string m authorization_messages then AuthorizationError
  else if mem_string m not_found_messages then NotFoundError
  else ValidationError.

(** Modelled from the spec: the class of a thrown value.  The status codes
    403, 404 and 500 of an [HttpError] stand for authorization, a missing
    document and a misconfigured listing. *)
Definition classify (e : error) : ErrorClass :=
  match e with
  | HttpError m status =>
      if status =? 403 then AuthorizationError
      else if status =? 404 then NotFoundError
      else if status =? 500 then ConfigurationError
      else classify_message m
  | Error m => classify_message m
  end.

(** ** Arrays *)

(** [Array.prototype.map] with the element index, 0-based. *)
Fixpoint mapi_from {A B : Type} (f : A -> Z -> B) (i : Z) (l : list A) : list B :=
  match l with
  | [] => []
  | x :: xs => f x i :: mapi_from f (i + 1) xs
  end.

Definition mapi {A B : Type} (f : A -> Z -> B) (l : list A) : list B :=
  mapi_from f 0 l.

(** [items ?? []] for an optional array: [undefined] has no elements. *)
Definition elems {A : Type} (o : option (list A)) : list A :=
  match o with Some l => l | None => [] end.

Definition sumZ (l : list Z) : Z := fold_right Z.add 0 l.

(** * Commission listings *)

Module Listing.

Definition ID : Type := Z.

(** *** Data model (the parts of [CommissionListingPayload] the service reads)

    The model file ([commissionListing.model]) lies outside the service;
    the records list the fields the service touches, and one descriptive string per item for the
    fields that the object spread [...item] carries over untouched. *)

Record Selection : Type := mkSelection {
  sel_id : option ID;
  sel_label : string;
  sel_price : Z
}.

Record OptionGroup : Type := mkOptionGroup {
  grp_id : option ID;
  grp_title : string;
  grp_selections : list Selection
}.

Record Addon : Type := mkAddon {
  add_id : option ID;
  add_label : string;
  add_price : Z
}.

Record Milestone : Type := mkMilestone {
  ms_id : option ID;
  ms_title : string;
  ms_percent : Z
}.

(** What an object holds under a key that the service reads: nothing (the
    key is not [in] the object), a value of the type the service casts it
    to, or something else ([null], [undefined] or a value of another
    type), given by the way it prints. *)
Inductive Key (A : Type) : Type :=
| Missing
| Other (printed : string)
| Holds (a : A).
Arguments Missing {A}.
Arguments Other {A} printed.
Arguments Holds {A} a.

(** A question as it may arrive: a string (legacy), a non-null object,
    [null], or any other primitive, which is carried by its [String(q)]
    form.  Of an object the service inspects the keys [title], [label] and
    [id] and, when it has neither [title] nor [label], its form
    [String(q)]: "[object Object]" for a plain object, the elements joined
    by commas for an array.  The canonical form is a plain object with
    exactly [id] and [text]. *)
Record QuestionObject : Type := mkQuestionObject {
  q_id : Key ID;
  q_title : Key string;
  q_label : Key string;
  q_text : Key string;
  q_string : string
}.

Inductive Question : Type :=
| QString (s : string)
| QObject (o : QuestionObject)
| QNull
| QPrimitive (string_form : string).

Record GeneralOptions : Type := mkGeneralOptions {
  go_optionGroups : option (list OptionGroup);
  go_addons : option (list Addon);
  go_questions : option (list Question)
}.

Record SubjectOption : Type := mkSubjectOption {
  so_id : option ID;
  so_title : string;
  so_optionGroups : option (list OptionGroup);
  so_addons : option (list Addon);
  so_questions : option (list Question)
}.

Record DeadlinePolicy : Type := mkDeadlinePolicy {
  mode : string
}.

Record PriceRange : Type := mkPriceRange {
  min : Z;
  max : Z
}.

Record Payload : Type := mkPayload {
  title : option string;
  type_ : option string;
  flow : option string;
  artistId : option string;
  thumbnailIdx : option Z;
  samples : option (list string);
  deadline : option DeadlinePolicy;
  basePrice : option Z;
  cancelationFee : option Z;
  slots : option Z;
  revisions_type : option string;
  milestones : option (list Milestone);
  generalOptions : option GeneralOptions;
  subjectOptions : option (list SubjectOption)
}.

(** *** [computePriceRange] (lines 86-110) *)

(** The closure [addPrices] updates the two local variables [min] and [max];
    here they are threaded through as a [PriceRange].  The argument is the
    list [items.map(item => item.price)]; an absent or empty [items] returns
    before anything is added.  The prices are whole numbers, and the sums
    are those of the source as long as they stay within 2^53 in magnitude
    ([ListingSpec.exactAmounts]); beyond, the source rounds. *)
Definition addPrices (r : PriceRange) (prices : list Z) : PriceRange :=
  match prices with
  | [] => r
  | p :: ps =>
      {| min := min r + fold_left Z.min ps p;
         max := max r + fold_left (fun sum price => sum + price) prices 0 |}
  end.

Definition addGroups (r : PriceRange) (groups : option (list OptionGroup)) : PriceRange :=
  fold_left (fun r group => addPrices r (map sel_price (grp_selections group)))
            (elems groups) r.

Definition addAddons (r : PriceRange) (addons : option (list Addon)) : PriceRange :=
  addPrices r (map add_price (elems addons)).

Definition computePriceRange (input : Payload) : PriceRange :=
  let base := match basePrice input with Some b => b | None => 0 end in
  let r := {| min := base; max := base |} in
  (* general options *)
  let r := addGroups r (match generalOptions input with
                        | Some g => go_optionGroups g | None => None end) in
  let r := addAddons r (match generalOptions input with
                        | Some g => go_addons g | None => None end) in
  (* subject options *)
  fold_left (fun r subject => addAddons (addGroups r (so_optionGroups subject))
                                        (so_addons subject))
            (elems (subjectOptions input)) r.

(** *** [generateIds] (lines 53-61) *)

(** The bound [T extends { id?: ID }] of the generic parameter. *)
Class HasId (T : Type) : Type := {
  getId : T -> option ID;
  setId : ID -> T -> T
}.

#[export] Instance Selection_HasId : HasId Selection := {|
  getId := sel_id;
  setId i s := {| sel_id := Some i; sel_label := sel_label s; sel_price := sel_price s |}
|}.

#[export] Instance OptionGroup_HasId : HasId OptionGroup := {|
  getId := grp_id;
  setId i g := {| grp_id := Some i; grp_title := grp_title g;
                  grp_selections := grp_selections g |}
|}.

#[export] Instance Addon_HasId : HasId Addon := {|
  getId := add_id;
  setId i a := {| add_id := Some i; add_label := add_label a; add_price := add_price a |}
|}.

#[export] Instance Milestone_HasId : HasId Milestone := {|
  getId := ms_id;
  setId i m := {| ms_id := Some i; ms_title := ms_title m; ms_percent := ms_percent m |}
|}.

#[export] Instance SubjectOption_HasId : HasId SubjectOption := {|
  getId := so_id;
  setId i s := {| so_id := Some i; so_title := so_title s;
                  so_optionGroups := so_optionGroups s;
                  so_addons := so_addons s;
                  so_questions := so_questions s |}
|}.

(** [items.map((item, index) => ({ ...item, id: item.id ?? startId + index }))] *)
Definition generateIds {T : Type} `{HasId T} (items : list T) (startId : ID) : list T :=
  mapi (fun item index =>
          setId (match getId item with
                 | Some i => i
                 | None => startId + index
                 end) item)
       items.

(** *** [processPayloadWithIds] (lines 219-324) *)

(** [String(q)] of a plain object. *)
Definition object_Object : string := "[object Object]".

(** The object literal [{ id: ..., text: ... }] that the conversion
    returns. *)
Definition idText (id : Key ID) (text : Key string) : Question :=
  QObject {| q_id := id; q_title := Missing; q_label := Missing; q_text := text;
             q_string := object_Object |}.

Definition canonicalQuestion (i : ID) (t : string) : Question :=
  idText (Holds i) (Holds t).

(** The arrow function given to [questionsArr.map], written out twice in the
    source (lines 253-268 for the general questions, 300-315 for those of a
    subject) with the same body. *)
Definition convertQuestion (q : Question) (idx : Z) : Question :=
  match q with
  | QString s => canonicalQuestion (idx + 1) s
  | QObject o =>
      match q_title o with
      | Missing =>
          match q_label o with
          | Missing => canonicalQuestion (idx + 1) (q_string o)
          | label =>
              idText (match q_id o with Missing => Holds (idx + 1) | id => id end) label
          end
      | title => idText (Holds (idx + 1)) title
      end
  | QNull => canonicalQuestion (idx + 1) "null"
  | QPrimitive str => canonicalQuestion (idx + 1) str
  end.

Definition processGroups (groups : list OptionGroup) : list OptionGroup :=
  map (fun group =>
         {| grp_id := grp_id group;
            grp_title := grp_title group;
            grp_selections := generateIds (grp_selections group) 1 |})
      (generateIds groups 1).

Definition processGeneralOptions (g : GeneralOptions) : GeneralOptions :=
  {| go_optionGroups := option_map processGroups (go_optionGroups g);
     go_addons := option_map (fun a => generateIds a 1) (go_addons g);
     go_questions := option_map (mapi convertQuestion) (go_questions g) |}.

Definition processSubject (subject : SubjectOption) : SubjectOption :=
  {| so_id := so_id subject;
     so_title := so_title subject;
     so_optionGroups := option_map processGroups (so_optionGroups subject);
     so_addons := option_map (fun a => generateIds a 1) (so_addons subject);
     so_questions := option_map (mapi convertQuestion) (so_questions subject) |}.

Definition processPayloadWithIds (payload : Payload) : Payload :=
  {| title := title payload;
     type_ := type_ payload;
     flow := flow payload;
     artistId := artistId payload;
     thumbnailIdx := thumbnailIdx payload;
     samples := samples payload;
     deadline := deadline payload;
     basePrice := basePrice payload;
     cancelationFee := cancelationFee payload;
     slots := slots payload;
     revisions_type := revisions_type payload;
     milestones := option_map (fun m => generateIds m 1) (milestones payload);
     generalOptions := option_map processGeneralOptions (generalOptions payload);
     subjectOptions :=
       option_map (fun s => map processSubject (generateIds s 1))
                  (subjectOptions payload) |}.

(** *** [validateListingPayload] (lines 158-211) *)

Definition present {A : Type} (o : option A) : bool :=
  match o with Some _ => true | None => false end.

Definition requiredFields (payload : Payload) : list (string * bool) :=
  [ ("title", present (title payload));
    ("type", present (type_ payload));
    ("flow", present (flow payload));
    ("artistId", present (artistId payload));
    ("thumbnailIdx", present (thumbnailIdx payload));
    ("samples", present (samples payload));
    ("deadline", present (deadline payload));
    ("basePrice", present (basePrice payload));
    ("cancelationFee", present (cancelationFee payload)) ].

Fixpoint checkRequired (fields : list (string * bool)) : result unit :=
  match fields with
  | [] => Ok tt
  | (field, here) :: rest =>
      if here then checkRequired rest
      else Err (HttpError400 (String.append "Required field missing: " field))
  end.

Definition flow_is (payload : Payload) (f : string) : bool :=
  match flow payload with Some x => String.eqb x f | None => false end.

(** [!payload.milestones || !payload.milestones.length] *)
Definition noMilestones (payload : Payload) : bool :=
  match milestones payload with
  | None | Some [] => true
  | Some (_ :: _) => false
  end.

(** The [reduce] of lines 193-196 on whole percentages; it is the sum of
    the source as long as it stays within 2^53 in magnitude
    ([ListingSpec.exactPercents]).  [percentSumDouble] below is the same
    [reduce] on doubles. *)
Definition percentSum (ms : list Milestone) : Z :=
  fold_left (fun acc milestone => acc + ms_percent milestone) ms 0.

Definition checkMilestoneFlow (payload : Payload) : result unit :=
  throw_if (flow_is payload "milestone" && noMilestones payload)
           (HttpError400 "Milestone flow requires milestones array").

Definition checkMilestoneSum (payload : Payload) : result unit :=
  match milestones payload with
  | Some ((_ :: _) as ms) =>
      throw_if (negb (percentSum ms =? 100))
               (HttpError400 "Milestone percentages must sum to 100%")
  | _ => Ok tt
  end.

(** The sum of lines 193-196 and the test [sum !== 100] of line 197 as the
    source computes them on percentages that need not be whole: doubles,
    added from left to right, starting from 0. *)
Definition percentSumDouble (percents : list float) : float :=
  fold_left (fun acc percent => PrimFloat.add acc percent) percents 0%float.

Definition sumIsNot100 (percents : list float) : bool :=
  negb (PrimFloat.eqb (percentSumDouble percents) 100%float).

Definition checkRevisions (payload : Payload) : result unit :=
  throw_if (flow_is payload "standard" &&
            match revisions_type payload with
            | Some t => String.eqb t "milestone"
            | None => false
            end)
           (HttpError400 "Standard flow cannot have milestone revision type").

Definition checkSlots (payload : Payload) : result unit :=
  throw_if (match slots payload with Some n => n =? 0 | None => false end)
           (HttpError400 "Slots cannot be 0").

Definition validateListingPayload (payload : Payload) : result unit :=
  check checkRequired (requiredFields payload) in
  check checkMilestoneFlow payload in
  check checkMilestoneSum payload in
  check checkRevisions payload in
  checkSlots payload.

(** Steps 8-10 of [createListingFromForm] (lines 412-423): normalise,
    validate, price; the value returned is what is handed to the
    repository's [createCommissionListing]. *)
Definition prepareListing (listingData : Payload) : result (Payload * PriceRange) :=
  let processedData := processPayloadWithIds listingData in
  check validateListingPayload processedData in
  Ok (processedData, computePriceRange processedData).

(** *** [convertQuestionsToIdFormat] (lines 69-77) *)

Record IdQuestion : Type := mkIdQuestion {
  iq_id : ID;
  iq_text : string
}.

Definition convertQuestionsToIdFormat (questions : option (list string))
  : list IdQuestion :=
  match questions with
  | None | Some [] => []
  | Some qs => mapi (fun text index => {| iq_id := index + 1; iq_text := text |}) qs
  end.

(** *** [sanitizePayload] (lines 118-150) *)

Definition allowedFields : list string :=
  [ "title"; "description"; "tags"; "slots"; "type"; "flow"; "deadline";
    "basePrice"; "cancelationFee"; "latePenaltyPercent"; "graceDays";
    "currency"; "allowContractChange"; "changeable"; "revisions";
    "milestones"; "generalOptions"; "subjectOptions" ].

(** The raw payload is an object with arbitrary keys; [V] is whatever the
    values are.  [field in rawPayload] is the presence of the key. *)
Definition sanitizePayload {V : Type} (rawPayload : gmap string V) : gmap string V :=
  fold_left (fun sanitized field =>
               match rawPayload !! field with
               | Some v => <[field := v]> sanitized
               | None => sanitized
               end)
            allowedFields ∅.

(** [sanitizePayload] on the fields of a [Payload]: a field is copied when
    its key is among [allowedFields] and the field is there.  (A key that
    is there with [null] under it is copied as well: see [Update] and
    [sanitizeUpdate] below.) *)
Definition keepField {A : Type} (field : string) (v : option A) : option A :=
  if mem_string field allowedFields then v else None.

Definition sanitizeFields (rawPayload : Payload) : Payload :=
  {| title := keepField "title" (title rawPayload);
     type_ := keepField "type" (type_ rawPayload);
     flow := keepField "flow" (flow rawPayload);
     artistId := keepField "artistId" (artistId rawPayload);
     thumbnailIdx := keepField "thumbnailIdx" (thumbnailIdx rawPayload);
     samples := keepField "samples" (samples rawPayload);
     deadline := keepField "deadline" (deadline rawPayload);
     basePrice := keepField "basePrice" (basePrice rawPayload);
     cancelationFee := keepField "cancelationFee" (cancelationFee rawPayload);
     slots := keepField "slots" (slots rawPayload);
     revisions_type := keepField "revisions" (revisions_type rawPayload);
     milestones := keepField "milestones" (milestones rawPayload);
     generalOptions := keepField "generalOptions" (generalOptions rawPayload);
     subjectOptions := keepField "subjectOptions" (subjectOptions rawPayload) |}.

(** *** Operations on stored listings *)

(** A stored listing: its owner ([existing.artistId.toString()]), the two
    flags, and the object [existing.toObject()]. *)
Record ListingDocument : Type := mkListingDocument {
  doc_artistId : string;
  doc_isActive : bool;
  doc_isDeleted : bool;
  doc_data : Payload
}.

Inductive QuestionTarget : Type :=
| TargetGeneral
| TargetSubject (subjectId : ID).

Inductive QuestionRef : Type :=
| GeneralQuestion (questionId : ID)
| SubjectQuestion (subjectId : ID) (questionId : ID).

(** The object [updates] as [updateListing] receives it.  A key of the
    object holds a value, or [null] or [undefined], or is missing: the
    values are the fields of [given], and [nullKeys] lists the keys that
    are [in] the object with [null] or [undefined] under them (a field of
    [given] is [None] for such a key as for a missing one). *)
Record Update : Type := mkUpdate {
  given : Payload;
  nullKeys : list string
}.

Definition holdsNull (updates : Update) (key : string) : bool :=
  mem_string key (nullKeys updates).

(** [sanitizePayload] on an update: it asks for [field in rawPayload] only,
    and copies an allowed key with whatever is under it. *)
Definition sanitizeUpdate (rawPayload : Update) : Update :=
  {| given := sanitizeFields (given rawPayload);
     nullKeys := List.filter (fun field => mem_string field allowedFields)
                        (nullKeys rawPayload) |}.

(** [processPayloadWithIds] on an update: [null] and [undefined] are falsy
    in each [if (processed. ...)], and the spread carries the key over as
    it is. *)
Definition processUpdate (payload : Update) : Update :=
  {| given := processPayloadWithIds (given payload);
     nullKeys := nullKeys payload |}.

(** The calls into [commissionListing.repository] in which the operations
    below end.  [updateCommissionListingComponents] receives the processed
    data with the price range written into it. *)
Inductive ListingRepoCall : Type :=
| updateCommissionListingComponents (listingId : string) (processedData : Update)
                                    (price : PriceRange)
| addQuestion (listingId : string) (questionText : string) (target : QuestionTarget)
| removeQuestion (listingId : string) (target : QuestionRef).

(** [{ ...existing, ...processedData }], key by key: a key of the second
    object overrides that of the first with whatever is under it, a value
    or [null]; a key the second object does not have leaves the first as
    it is. *)
Definition spread {A : Type} (processedData : Update) (key : string)
           (existing processed : option A) : option A :=
  match processed with
  | Some v => Some v
  | None => if holdsNull processedData key then None else existing
  end.

Definition mergePayload (existing : Payload) (processedData : Update) : Payload :=
  let merge {A : Type} (key : string) (field : Payload -> option A) : option A :=
    spread processedData key (field existing) (field (given processedData)) in
  {| title := merge "title" title;
     type_ := merge "type" type_;
     flow := merge "flow" flow;
     artistId := merge "artistId" artistId;
     thumbnailIdx := merge "thumbnailIdx" thumbnailIdx;
     samples := merge "samples" samples;
     deadline := merge "deadline" deadline;
     basePrice := merge "basePrice" basePrice;
     cancelationFee := merge "cancelationFee" cancelationFee;
     slots := merge "slots" slots;
     revisions_type := merge "revisions" revisions_type;
     milestones := merge "milestones" milestones;
     generalOptions := merge "generalOptions" generalOptions;
     subjectOptions := merge "subjectOptions" subjectOptions |}.

(** The head of [updateListingFromForm], [updateListing],
    [addQuestionToListing] and [removeQuestionFromListing] (lines 442-446,
    551-555, 652-656 and 678-682, the same statements each time): fetch the
    listing, then compare its artist with the caller. *)
Definition fetchOwned (db : gmap string ListingDocument) (artist listingId : string)
  : result ListingDocument :=
  match db !! listingId with
  | None => Err (HttpError "Listing not found" 404)
  | Some existing =>
      if negb (String.eqb (doc_artistId existing) artist)
      then Err (HttpError "Not authorized to update this listing" 403)
      else Ok existing
  end.

(** [updateListing] (lines 545-580) *)
Definition updateListing (db : gmap string ListingDocument)
           (artist listingId : string) (updates : Update) : result ListingRepoCall :=
  try existing <- fetchOwned db artist listingId in
  let sanitized := sanitizeUpdate updates in
  let processedData := processUpdate sanitized in
  let merged := mergePayload (doc_data existing) processedData in
  check validateListingPayload merged in
  let price := computePriceRange merged in
  Ok (updateCommissionListingComponents listingId processedData price).

(** [addQuestionToListing] (lines 645-659) *)
Definition addQuestionToListing (db : gmap string ListingDocument)
           (artist listingId questionText : string) (target : QuestionTarget)
  : result ListingRepoCall :=
  try existing <- fetchOwned db artist listingId in
  Ok (addQuestion listingId questionText target).

(** [removeQuestionFromListing] (lines 670-685) *)
Definition removeQuestionFromListing (db : gmap string ListingDocument)
           (artist listingId : string) (target : QuestionRef)
  : result ListingRepoCall :=
  try existing <- fetchOwned db artist listingId in
  Ok (removeQuestion listingId target).

(** [getListingPublic] (lines 714-720) *)
Definition getListingPublic (db : gmap string ListingDocument) (listingId : string)
  : result ListingDocument :=
  match db !! listingId with
  | None => Err (HttpError "Listing not found" 404)
  | Some listing =>
      if doc_isDeleted listing || negb (doc_isActive listing)
      then Err (HttpError "Listing not found" 404)
      else Ok listing
  end.

End Listing.

(** * Proposals *)

Module Proposal.

Definition Date : Type := Z.
Definition Cents : Type := Z.

(** ** Strings and dates of the runtime *)

(** A string is held as its UTF-8 bytes.  White space as
    [String.prototype.trim] sees it (the WhiteSpace and LineTerminator
    characters of ECMAScript) is then
      - of one byte: TAB, LF, VT, FF, CR (9 to 13) and SPACE (32);
      - of two bytes: U+00A0 (C2 A0);
      - of three bytes: U+1680 (E1 9A 80), U+2000 to U+200A (E2 80 80 to
        E2 80 8A), U+2028, U+2029 and U+202F (E2 80 A8, A9 and AF), U+205F
        (E2 81 9F), U+3000 (E3 80 80) and U+FEFF (EF BB BF). *)
Definition byte (a : ascii) : Z := Z.of_nat (nat_of_ascii a).

Definition whiteSpace1 (a : ascii) : bool :=
  ((9 <=? byte a) && (byte a <=? 13)) || (byte a =? 32).

Definition whiteSpace2 (a b : ascii) : bool :=
  (byte a =? 194) && (byte b =? 160).

Definition whiteSpace3 (a b c : ascii) : bool :=
  ((byte a =? 225) && (byte b =? 154) && (byte c =? 128))
  || ((byte a =? 226) && (byte b =? 128)
      && (((128 <=? byte c) && (byte c <=? 138))
          || (byte c =? 168) || (byte c =? 169) || (byte c =? 175)))
  || ((byte a =? 226) && (byte b =? 129) && (byte c =? 159))
  || ((byte a =? 227) && (byte b =? 128) && (byte c =? 128))
  || ((byte a =? 239) && (byte b =? 187) && (byte c =? 191)).

(** [s.trimStart()]: the string from its first character that is not white
    space. *)
Fixpoint trimStart (s : string) : string :=
  match s with
  | EmptyString => EmptyString
  | String a r1 =>
      if whiteSpace1 a then trimStart r1
      else
        match r1 with
        | EmptyString => s
        | String b r2 =>
            if whiteSpace2 a b then trimStart r2
            else
              match r2 with
              | EmptyString => s
              | String c r3 => if whiteSpace3 a b c then trimStart r3 else s
              end
        end
  end.

(** Whether a string is white space from its first character to its last
    (the empty string is). *)
Fixpoint onlyWhiteSpace (s : string) : bool :=
  match s with
  | EmptyString => true
  | String a r1 =>
      if whiteSpace1 a then onlyWhiteSpace r1
      else
        match r1 with
        | EmptyString => false
        | String b r2 =>
            if whiteSpace2 a b then onlyWhiteSpace r2
            else
              match r2 with
              | EmptyString => false
              | String c r3 => if whiteSpace3 a b c then onlyWhiteSpace r3 else false
              end
        end
  end.

(** [s.trimEnd()]: the string up to the point from which only white space
    follows. *)
Fixpoint trimEnd (s : string) : string :=
  match s with
  | EmptyString => EmptyString
  | String a rest => if onlyWhiteSpace s then EmptyString else String a (trimEnd rest)
  end.

(** [s.trim()] *)
Definition trim (s : string) : string := trimEnd (trimStart s).

(** Truthiness of a string: [!s] holds exactly for the empty string. *)
Definition isEmpty (s : string) : bool :=
  match s with EmptyString => true | _ => false end.

Definition digit (n : Z) : string :=
  String (ascii_of_nat (Z.to_nat (48 + n mod 10))) EmptyString.

(** The decimal digits of a non-negative [n], at least [width] of them. *)
Fixpoint padded (width : nat) (n : Z) : string :=
  match width with
  | O => EmptyString
  | S w => String.append (padded w (n / 10)) (digit n)
  end.

Definition msPerDay : Z := 86400000.

(** Year, month and day (UTC) of a time value, in the proleptic Gregorian
    calendar of ECMAScript. *)
Definition civilFromTime (t : Date) : Z * Z * Z :=
  let z := t / msPerDay + 719468 in
  let era := z / 146097 in
  let doe := z - era * 146097 in
  let yoe := (doe - doe / 1460 + doe / 36524 - doe / 146096) / 365 in
  let doy := doe - (365 * yoe + yoe / 4 - yoe / 100) in
  let mp := (5 * doy + 2) / 153 in
  let d := doy - (153 * mp + 2) / 5 + 1 in
  let m := if mp <? 10 then mp + 3 else mp - 9 in
  let y := yoe + era * 400 + (if m <=? 2 then 1 else 0) in
  (y, m, d).

Definition present_date (d : option Date) : bool :=
  match d with Some _ => true | None => false end.

(** [date.toISOString().split("T")[0]] *)
Definition isoDay (t : Date) : string :=
  let '(y, m, d) := civilFromTime t in
  let year :=
    if (0 <=? y) && (y <=? 9999) then padded 4 y
    else String.append (if y <? 0 then "-" else "+") (padded 6 (Z.abs y)) in
  String.append year
    (String.append "-" (String.append (padded 2 m) (String.append "-" (padded 2 d)))).

(** ** Data model *)

(** The statuses of section 4.4 of the specification; the service compares
    [proposal.status] with four of them. *)
Inductive Status : Type :=
| pendingArtist
| pendingClient
| accepted
| rejectedArtist
| rejectedClient
| expired
| cancelled
| finalized.

Definition Status_eqb (a b : Status) : bool :=
  match a, b with
  | pendingArtist, pendingArtist | pendingClient, pendingClient
  | accepted, accepted | rejectedArtist, rejectedArtist
  | rejectedClient, rejectedClient | expired, expired
  | cancelled, cancelled | finalized, finalized => true
  | _, _ => false
  end.

Record ServiceOptionSelection : Type := mkServiceOptionSelection {
  os_id : Z;
  os_groupId : Z;
  os_selectedSelectionID : Z;
  os_selectedSelectionLabel : string;
  os_price : Cents
}.

Record ServiceAddon : Type := mkServiceAddon {
  sa_id : Z;
  sa_addonId : Z;
  sa_price : Cents
}.

Record ServiceAnswer : Type := mkServiceAnswer {
  an_id : Z;
  an_questionId : Z;
  an_answer : string
}.

Record ServiceGeneralOptionsInput : Type := mkServiceGeneralOptionsInput {
  optionGroups : option (list ServiceOptionSelection);
  addons : option (list ServiceAddon);
  answers : option (list ServiceAnswer)
}.

Record ServiceSubjectInstance : Type := mkServiceSubjectInstance {
  si_id : Z;
  si_optionGroups : option (list ServiceOptionSelection);
  si_addons : option (list ServiceAddon);
  si_answers : option (list ServiceAnswer)
}.

Record ServiceSubjectOption : Type := mkServiceSubjectOption {
  subjectId : Z;
  instances : list ServiceSubjectInstance
}.

Record ServiceSubjectOptionsInput : Type := mkServiceSubjectOptionsInput {
  subjects : option (list ServiceSubjectOption)
}.

(** What the proposal service reads of a listing. *)
Record ICommissionListing : Type := mkICommissionListing {
  l_artistId : string;
  isActive : bool;
  isDeleted : bool;
  deadline_mode : string
}.

Record IProposal : Type := mkIProposal {
  clientId : string;
  artistId : string;
  listingId : string;
  status : Status
}.

Record Estimate : Type := mkEstimate {
  earliestDate : Date;
  latestDate : Date
}.

Record ProposalInput : Type := mkProposalInput {
  pi_clientId : string;
  pi_artistId : string;
  pi_listingId : string;
  pi_earliestDate : Date;
  pi_latestDate : Date;
  pi_deadline : Date;
  pi_baseDate : option Date;
  pi_generalDescription : string;
  pi_referenceImages : option (list string);
  pi_generalOptions : option ServiceGeneralOptionsInput;
  pi_subjectOptions : option (list ServiceSubjectOption)
}.

Record UpdateProposalInput : Type := mkUpdateProposalInput {
  up_earliestDate : Date;
  up_latestDate : Date;
  up_baseDate : Date;
  up_deadline : option Date;
  up_generalDescription : option string;
  up_generalOptions : option ServiceGeneralOptionsInput;
  up_subjectOptions : option (list ServiceSubjectOption);
  up_referenceImages : option (list string)
}.

Record ArtistAdjustment : Type := mkArtistAdjustment {
  proposedSurcharge : option Z;
  proposedDiscount : option Z;
  proposedDate : Date
}.

Record ArtistDecision : Type := mkArtistDecision {
  acceptProposal : bool;
  surcharge : option Z;
  discount : option Z;
  rejectionReason : option string
}.

Record ClientDecision : Type := mkClientDecision {
  cancel : option bool;
  acceptAdjustments : option bool
}.

Record DynamicEstimate : Type := mkDynamicEstimate {
  de_earliestDate : Date;
  de_latestDate : Date;
  de_baseDate : Date
}.

(** ** The collaborators of the service *)

(** The contents of an uploaded file; the service never looks inside. *)
Definition Blob : Type := string.

(** The [payload] entry of a form: absent (or empty, or not a string), in
    which case the service continues with [{}]; a string that
    [JSON.parse] rejects; or the parsed object, of which the service reads
    [generalOptions] and [subjectOptions]. *)
Inductive PayloadEntry : Type :=
| PayloadAbsent
| PayloadInvalid
| PayloadJson (generalOptions : option ServiceGeneralOptionsInput)
              (subjectOptions : option ServiceSubjectOptionsInput).

(** A [FormData].  The text entries are [Some] when [form.get] returns a
    string; the two array entries are the values of [getAll]. *)
Record FormData : Type := mkFormData {
  f_payload : PayloadEntry;
  f_listingId : option string;
  f_deadline : option string;
  f_generalDescription : option string;
  f_referenceImages : list Blob;
  f_existingReferences : list string
}.

(** The documents the service reads: proposals and listings by id, and per
    artist the latest deadline among the active contracts
    ([getLatestActiveContractDeadline], absent for an artist without one). *)
Record Database : Type := mkDatabase {
  proposals : gmap string IProposal;
  listings : gmap string ICommissionListing;
  contractDeadlines : gmap string Date
}.

Definition getProposalById (db : Database) (id : string) : option IProposal :=
  proposals db !! id.

Definition findCommissionListingById (db : Database) (id : string)
  : option ICommissionListing :=
  listings db !! id.

Definition getLatestActiveContractDeadline (db : Database) (artist : string)
  : option Date :=
  contractDeadlines db !! artist.

(** What lies outside the service and the database: the clock
    ([new Date()]), the [Date] constructor on a string, the upload to object
    storage, and the repository's [computeDynamicEstimate]. *)
Record Runtime : Type := mkRuntime {
  now : Date;
  parseDate : string -> Date;
  uploadGalleryImagesToR2 : list Blob -> string -> string -> result (list string);
  computeDynamicEstimate : ICommissionListing -> Date -> result Estimate
}.

(** Modelled from the spec: the function [computeDynamicEstimate] of
    [proposal.repository], which the service imports.  Section 4.1 gives its
    contract: called directly, it yields a window [earliestDate, latestDate]
    that is strictly ordered (or fails with a configuration error).  A
    runtime honours the contract when every window its estimator returns is
    strictly ordered. *)
Definition estimatorOrdered (rt : Runtime) : Prop :=
  forall listing baseDate w,
    computeDynamicEstimate rt listing baseDate = Ok w ->
    earliestDate w < latestDate w.

(** The calls into [proposal.repository] in which the exported functions
    end: each returns what the repository returns. *)
Inductive RepoCall : Type :=
| repoCreateProposal (input : ProposalInput)
| repoUpdateProposal (proposalId : string) (updates : UpdateProposalInput)
| artistResponds (proposalId : string) (accept : bool)
                 (adjustment : option ArtistAdjustment)
                 (rejectionReason : option string)
| clientRespondsToAdjustment (proposalId : string)
                             (acceptAdjustments : option bool) (cancel : bool)
| cancelProposal (proposalId : string) (clientId : string)
| finalizeAcceptance (proposalId : string).

(** Modelled from the spec: the terminal statuses of section 4.4. *)
Definition isTerminal (s : Status) : bool :=
  match s with
  | finalized | cancelled | rejectedArtist | expired => true
  | pendingArtist | pendingClient | rejectedClient | accepted => false
  end.

Definition withStatus (p : IProposal) (s : Status) : IProposal :=
  {| clientId := clientId p; artistId := artistId p;
     listingId := listingId p; status := s |}.

(** Modelled from the spec: the function [cancelProposal] of
    [proposal.repository], which the service imports.  Section 4.4 has the
    cancellation legal from any non-terminal state and has it move the
    proposal to [cancelled].  The result is the database after the
    transition and the proposal returned; [None] when the cancellation is
    not legal (how it fails is not described). *)
Definition cancelProposal_repository (db : Database) (proposalId client : string)
  : option (Database * IProposal) :=
  match proposals db !! proposalId with
  | None => None
  | Some p =>
      if isTerminal (status p) then None
      else
        let p' := withStatus p cancelled in
        Some ({| proposals := <[proposalId := p']> (proposals db);
                 listings := listings db;
                 contractDeadlines := contractDeadlines db |}, p')
  end.

(** ** Helper functions *)

(** [convertGeneralOptions] (lines 129-149) *)
Definition convertGeneralOptions (options : option ServiceGeneralOptionsInput)
  : option ServiceGeneralOptionsInput :=
  match options with
  | None => None
  | Some o =>
      Some {| optionGroups := optionGroups o;
              addons := addons o;
              answers := answers o |}
  end.

(** [convertSubjectOptions] (lines 157-163) *)
Definition convertSubjectOptions (options : option ServiceSubjectOptionsInput)
  : option (list ServiceSubjectOption) :=
  match options with
  | None => None
  | Some o => subjects o
  end.

(** [validateDeadline] (lines 174-205) *)
Definition validateDeadline (listing : ICommissionListing)
           (deadline earliest latest : Date) : result unit :=
  let mode := deadline_mode listing in
  if String.eqb mode "standard" then Ok tt
  else if String.eqb mode "withDeadline" then
    if deadline <? earliest then
      Err (HttpError (String.append "Deadline cannot be earlier than "
                                    (isoDay earliest)) 400)
    else Ok tt
  else if String.eqb mode "withRush" then Ok tt
  else Err (HttpError "Invalid deadline mode in listing" 500).

(** [validateProposalInput] (lines 213-233) *)
Definition validateProposalInput (input : ProposalInput) : result unit :=
  check throw_if (pi_earliestDate input >=? pi_latestDate input)
                 (Error "Earliest date must be before latest date") in
  check throw_if (isEmpty (trim (pi_generalDescription input)))
                 (Error "Description is required") in
  check throw_if (match pi_referenceImages input with
                  | Some imgs => (Z.of_nat (length imgs) >? 5)
                  | None => false
                  end)
                 (Error "Maximum 5 reference images allowed") in
  throw_if (negb (present_date (pi_baseDate input)))
           (Error "Base date is required").

(** ** Main operations *)

(** A text entry that is missing or empty fails the test [!value]. *)
Definition textEntry (v : option string) (e : error) : result string :=
  match v with
  | Some s => if isEmpty s then Err e else Ok s
  | None => Err e
  end.

(** The parsed [payload] entry: [{}] when absent, an error when
    [JSON.parse] throws. *)
Definition parsePayload (entry : PayloadEntry)
  : result (option ServiceGeneralOptionsInput * option ServiceSubjectOptionsInput) :=
  match entry with
  | PayloadAbsent => Ok (None, None)
  | PayloadInvalid => Err (HttpError "Invalid JSON payload" 400)
  | PayloadJson g s => Ok (g, s)
  end.

Definition lookupOr {A : Type} (o : option A) (e : error) : result A :=
  match o with Some a => Ok a | None => Err e end.

(** [(await getLatestActiveContractDeadline(artistId)) || new Date()] *)
Definition baseDateFor (rt : Runtime) (db : Database) (artist : string) : Date :=
  match getLatestActiveContractDeadline db artist with
  | Some d => d
  | None => now rt
  end.

(** [createProposalFromForm] (lines 247-352).  The [catch] clause logs and
    rethrows, so the errors pass through unchanged. *)
Definition createProposalFromForm (rt : Runtime) (db : Database)
           (client : string) (form : FormData) : result RepoCall :=
  try jsonPayload <- parsePayload (f_payload form) in
  try listingId <- textEntry (f_listingId form)
                     (HttpError "Required field missing: listingId" 400) in
  try listing <- lookupOr (findCommissionListingById db listingId)
                   (HttpError "Listing not found" 404) in
  check throw_if (negb (isActive listing) || isDeleted listing)
                 (HttpError "Listing is not active" 400) in
  let baseDate := baseDateFor rt db (l_artistId listing) in
  try window <- computeDynamicEstimate rt listing baseDate in
  try deadlineFromForm <- textEntry (f_deadline form)
                            (HttpError "Missing required deadline field" 400) in
  let deadline := parseDate rt deadlineFromForm in
  check validateDeadline listing deadline (earliestDate window) (latestDate window) in
  try generalDescription <- textEntry (f_generalDescription form)
                              (HttpError "Missing required general description" 400) in
  try referenceImages <- uploadGalleryImagesToR2 rt (f_referenceImages form)
                           client "proposal" in
  let proposalInput :=
    {| pi_clientId := client;
       pi_artistId := l_artistId listing;
       pi_listingId := listingId;
       pi_earliestDate := earliestDate window;
       pi_latestDate := latestDate window;
       pi_deadline := deadline;
       pi_baseDate := Some baseDate;
       pi_generalDescription := generalDescription;
       pi_referenceImages := Some referenceImages;
       pi_generalOptions := convertGeneralOptions (fst jsonPayload);
       pi_subjectOptions := convertSubjectOptions (snd jsonPayload) |} in
  check validateProposalInput proposalInput in
  Ok (repoCreateProposal proposalInput).

(** [updateProposalFromForm] (lines 363-487).  A [null] answer of the
    repository to [repoUpdateProposal] is rethrown by the service as
    [HttpError("Failed to update proposal", 500)]. *)
Definition updateProposalFromForm (rt : Runtime) (db : Database)
           (proposalId userId : string) (form : FormData) : result RepoCall :=
  try existing <- lookupOr (getProposalById db proposalId)
                    (HttpError "Proposal not found" 404) in
  check throw_if (negb (String.eqb (clientId existing) userId))
                 (HttpError "Not authorized to edit this proposal" 403) in
  check throw_if (negb (Status_eqb (status existing) pendingArtist))
                 (HttpError "Can only edit proposals in pendingArtist status" 400) in
  try jsonPayload <- parsePayload (f_payload form) in
  try listing <- lookupOr (findCommissionListingById db (listingId existing))
                   (HttpError "Associated listing not found" 404) in
  let baseDate := baseDateFor rt db (l_artistId listing) in
  try window <- computeDynamicEstimate rt listing baseDate in
  try deadline <-
    match f_deadline form with
    | Some s =>
        if isEmpty s then Ok None
        else
          let d := parseDate rt s in
          check validateDeadline listing d (earliestDate window) (latestDate window) in
          Ok (Some d)
    | None => Ok None
    end in
  let generalDescription :=
    match f_generalDescription form with
    | Some s => if isEmpty s then None else Some s
    | None => None
    end in
  let existingReferences := f_existingReferences form in
  let referenceBlobs := f_referenceImages form in
  try referenceImages <-
    if negb (Nat.eqb (length existingReferences) 0)
       || negb (Nat.eqb (length referenceBlobs) 0) then
      try uploadedUrls <-
        (if negb (Nat.eqb (length referenceBlobs) 0)
         then uploadGalleryImagesToR2 rt referenceBlobs userId "proposal"
         else Ok []) in
      Ok (Some (app existingReferences uploadedUrls))
    else Ok None in
  Ok (repoUpdateProposal proposalId
        {| up_earliestDate := earliestDate window;
           up_latestDate := latestDate window;
           up_baseDate := baseDate;
           up_deadline := deadline;
           up_generalDescription := generalDescription;
           up_generalOptions :=
             match fst jsonPayload with
             | Some g => convertGeneralOptions (Some g)
             | None => None
             end;
           up_subjectOptions :=
             match snd jsonPayload with
             | Some o => convertSubjectOptions (Some o)
             | None => None
             end;
           up_referenceImages := referenceImages |}).

(** Truthiness of an optional amount: [undefined] and [0] are falsy. *)
Definition truthyAmount (a : option Z) : bool :=
  match a with Some n => negb (n =? 0) | None => false end.

(** Truthiness of an optional string. *)
Definition truthyText (t : option string) : bool :=
  match t with Some s => negb (isEmpty s) | None => false end.

(** [artistRespond] (lines 502-562) *)
Definition artistRespond (rt : Runtime) (db : Database)
           (artist proposalId : string) (decision : ArtistDecision)
  : result RepoCall :=
  try proposal <- lookupOr (getProposalById db proposalId)
                    (Error "Proposal not found") in
  check throw_if (negb (String.eqb (artistId proposal) artist))
                 (Error "Not authorized to respond to this proposal") in
  if negb (acceptProposal decision) then
    (* the artist is rejecting the proposal *)
    check throw_if (negb (truthyText (rejectionReason decision)))
                   (Error "Rejection reason is required") in
    Ok (artistResponds proposalId false None (rejectionReason decision))
  else if Status_eqb (status proposal) pendingArtist
          || Status_eqb (status proposal) rejectedClient then
    let adjustment :=
      if truthyAmount (surcharge decision) || truthyAmount (discount decision) then
        Some {| proposedSurcharge := surcharge decision;
                proposedDiscount := discount decision;
                proposedDate := now rt |}
      else None in
    Ok (artistResponds proposalId true adjustment None)
  else Err (Error "Proposal is not awaiting artist response").

(** [clientRespond] (lines 573-609) *)
Definition clientRespond (db : Database)
           (client proposalId : string) (decision : ClientDecision)
  : result RepoCall :=
  try proposal <- lookupOr (getProposalById db proposalId)
                    (Error "Proposal not found") in
  check throw_if (negb (String.eqb (clientId proposal) client))
                 (Error "Not authorized to respond to this proposal") in
  (* cancellation, at any status *)
  if match cancel decision with Some b => b | None => false end then
    Ok (cancelProposal proposalId client)
  else
    check throw_if (negb (Status_eqb (status proposal) pendingClient))
                   (Error "Proposal is not awaiting client response") in
    Ok (clientRespondsToAdjustment proposalId (acceptAdjustments decision) false).

(** [finalizeProposal] (lines 801-819) *)
Definition finalizeProposal (db : Database) (proposalId : string) : result RepoCall :=
  try proposal <- lookupOr (getProposalById db proposalId)
                    (Error "Proposal not found") in
  check throw_if (negb (Status_eqb (status proposal) accepted))
                 (Error "Proposal must be in accepted status to finalize") in
  Ok (finalizeAcceptance proposalId).

(** [getDynamicEstimate] (lines 888-903): the estimator's window, spread
    into the result, and the base date next to it. *)
Definition getDynamicEstimate (rt : Runtime) (db : Database) (listingId : string)
  : result DynamicEstimate :=
  try listing <- lookupOr (findCommissionListingById db listingId)
                   (Error "Listing not found") in
  let latestDeadline := getLatestActiveContractDeadline db (l_artistId listing) in
  let baseDate := match latestDeadline with Some d => d | None => now rt end in
  try window <- computeDynamicEstimate rt listing baseDate in
  Ok {| de_earliestDate := earliestDate window;
        de_latestDate := latestDate window;
        de_baseDate := baseDate |}.

(** ** Queries and permission helpers *)

(** [fetchProposalById] (lines 700-725) *)
Definition fetchProposalById (db : Database) (proposalId userId : string)
  : result IProposal :=
  try proposal <- lookupOr (getProposalById db proposalId)
                    (Error "Proposal not found") in
  let isClient := String.eqb (clientId proposal) userId in
  let isArtist := String.eqb (artistId proposal) userId in
  check throw_if (negb isClient && negb isArtist)
                 (Error "Not authorized to view this proposal") in
  Ok proposal.

(** [canEditProposal] (lines 738-754) *)
Definition canEditProposal (db : Database) (proposalId userId : string) : bool :=
  match getProposalById db proposalId with
  | None => false
  | Some proposal =>
      String.eqb (clientId proposal) userId
      && Status_eqb (status proposal) pendingArtist
  end.

(** The [role] parameter of [canRespondToProposal]. *)
Inductive Role : Type :=
| asClient
| asArtist.

(** [canRespondToProposal] (lines 764-788) *)
Definition canRespondToProposal (db : Database) (proposalId userId : string)
           (role : Role) : bool :=
  match getProposalById db proposalId with
  | None => false
  | Some proposal =>
      match role with
      | asArtist =>
          String.eqb (artistId proposal) userId
          && Status_eqb (status proposal) pendingArtist
      | asClient =>
          String.eqb (clientId proposal) userId
          && Status_eqb (status proposal) pendingClient
      end
  end.

End Proposal.

(** * Accounts *)

(** The registration schema and the controller that applies it (both in
    [src/schemas/UserSchema.ts]) and [src/lib/services/AuthService.ts].
    Strings are held as their UTF-8 bytes, as in [Proposal]; [len] is the
    [length] of the source, which counts UTF-16 code units. *)
Module Account.

Definition code (a : ascii) : Z := Z.of_nat (nat_of_ascii a).

Definition between (lo hi : Z) (a : ascii) : bool :=
  (lo <=? code a) && (code a <=? hi).

(** The character classes [[a-z0-9]] and [[a-zA-Z0-9_]]. *)
Definition isLowerAlnum (a : ascii) : bool :=
  between 97 122 a || between 48 57 a.

Definition isWordChar (a : ascii) : bool :=
  between 97 122 a || between 65 90 a || between 48 57 a || (code a =? 95).

Fixpoint everyChar (p : ascii -> bool) (s : string) : bool :=
  match s with
  | EmptyString => true
  | String a rest => p a && everyChar p rest
  end.

(** [/^[...]+$/.test(val)] for a character class: one character or more,
    all of the class, up to the end of the string. *)
Definition testClassPlus (p : ascii -> bool) (val : string) : bool :=
  negb (Proposal.isEmpty val) && everyChar p val.

(** The first byte of a character of two, three and four bytes, and the
    bytes that follow it. *)
Definition lead2 (a : ascii) : bool := between 192 223 a.
Definition lead3 (a : ascii) : bool := between 224 239 a.
Definition lead4 (a : ascii) : bool := between 240 247 a.
Definition continuation (a : ascii) : bool := between 128 191 a.

(** [s.length]: one code unit for a character of one, two or three bytes,
    two (a surrogate pair) for a character of four bytes.  A byte that
    starts no character counts as one code unit, as the replacement
    character a decoder puts in its place does. *)
Fixpoint len (s : string) : Z :=
  match s with
  | EmptyString => 0
  | String a r1 =>
      match r1 with
      | EmptyString => 1
      | String b r2 =>
          if lead2 a && continuation b then 1 + len r2
          else
            match r2 with
            | EmptyString => 1 + len r1
            | String c r3 =>
                if lead3 a && continuation b && continuation c then 1 + len r3
                else
                  match r3 with
                  | EmptyString => 1 + len r1
                  | String d r4 =>
                      if lead4 a && continuation b && continuation c && continuation d
                      then 2 + len r4
                      else 1 + len r1
                  end
            end
      end
  end.

(** The [username] entry of [RegisterSchema]: [max(20)] and the two
    refinements. *)
Definition usernameSchema (val : string) : bool :=
  (len val <=? 20)
  && testClassPlus isLowerAlnum val
  && (len (Proposal.trim val) >? 0).

(** The [password] entry of [RegisterSchema]: [min(8)], [max(20)] and the
    refinement. *)
Definition passwordSchema (val : string) : bool :=
  (len val >=? 8)
  && (len val <=? 20)
  && (len (Proposal.trim val) >? 0).

Record RegisterBody : Type := mkRegisterBody {
  email : string;
  username : string;
  password : string
}.

(** Whether [RegisterSchema.parse(body)] returns; [emailFormat] is the test
    behind [z.string().email()]. *)
Definition RegisterSchema (emailFormat : string -> bool) (body : RegisterBody) : bool :=
  emailFormat (email body)
  && passwordSchema (password body)
  && usernameSchema (username body).

(** What [registerUserController] does with a body: answer 400 with
    "Invalid username format", answer 400 with the message of the schema
    error, or call [registerUser]. *)
Inductive RegisterOutcome : Type :=
| InvalidUsernameFormat
| SchemaError
| registerUser (email username password : string).

(** [registerUserController] (lines 32-61) *)
Definition registerUserController (emailFormat : string -> bool)
           (body : RegisterBody) : RegisterOutcome :=
  if negb (testClassPlus isWordChar (username body)) then InvalidUsernameFormat
  else if RegisterSchema emailFormat body then
    registerUser (email body) (username body) (password body)
  else SchemaError.

Record User : Type := mkUser {
  u_id : string;
  u_username : string;
  u_password : string;
  u_isDeleted : bool
}.

Record Login : Type := mkLogin {
  user : User;
  accessToken : string;
  refreshToken : string
}.

(** What [loginUser] uses from outside: [bcrypt.compare] and the two token
    generators, each given the id and the username. *)
Record Crypto : Type := mkCrypto {
  compare : string -> string -> bool;
  generateAccessToken : string -> string -> string;
  generateRefreshToken : string -> string -> string
}.

(** [loginUser] (lines 7-18); the users are looked up by username. *)
Definition loginUser (crypto : Crypto) (users : gmap string User)
           (name pass : string) : result Login :=
  match users !! name with
  | None => Err (Error "Invalid credentials")
  | Some u =>
      if u_isDeleted u then Err (Error "Invalid credentials")
      else if negb (compare crypto pass (u_password u))
      then Err (Error "Invalid credentials")
      else Ok {| user := u;
                 accessToken := generateAccessToken crypto (u_id u) (u_username u);
                 refreshToken := generateRefreshToken crypto (u_id u) (u_username u) |}
  end.

End Account.

(** * The listing service in the words of the specification *)

Module ListingSpec.
Import Listing.

(** ** The price range, in the words of the specification *)

(** The cheapest price of a list; an empty list contributes nothing. *)
Definition cheapest (prices : list Z) : Z :=
  match prices with
  | [] => 0
  | p :: ps => fold_right Z.min p ps
  end.

Definition subjectsOf (input : Payload) : list SubjectOption :=
  elems (subjectOptions input).

(** Every option group of a payload: the general ones and those of each
    subject. *)
Definition allGroups (input : Payload) : list OptionGroup :=
  app (elems (match generalOptions input with
              | Some g => go_optionGroups g | None => None end))
      (flat_map (fun s => elems (so_optionGroups s)) (subjectsOf input)).

(** Every addon list of a payload: the general one and one per subject. *)
Definition allAddonLists (input : Payload) : list (list Addon) :=
  elems (match generalOptions input with
         | Some g => go_addons g | None => None end)
  :: map (fun s => elems (so_addons s)) (subjectsOf input).

Definition baseOf (input : Payload) : Z :=
  match basePrice input with Some b => b | None => 0 end.

Definition groupPrices (g : OptionGroup) : list Z :=
  map sel_price (grp_selections g).

(** [basePrice] plus the cheapest selection of every group. *)
Definition cheapestSelections (input : Payload) : Z :=
  baseOf input + sumZ (map (fun g => cheapest (groupPrices g)) (allGroups input)).

(** The cheapest addon of every addon list. *)
Definition cheapestAddons (input : Payload) : Z :=
  sumZ (map (fun a => cheapest (map add_price a)) (allAddonLists input)).

(** [basePrice] plus every selection price and every addon price. *)
Definition everything (input : Payload) : Z :=
  baseOf input
  + sumZ (map sel_price (flat_map grp_selections (allGroups input)))
  + sumZ (map add_price (concat (allAddonLists input))).

(** The arithmetic of the source is exact on a payload: its amounts are
    whole numbers (they are, in [Z]) and add up to 2^53 at most in
    magnitude, so that no sum or partial sum of them is rounded. *)
Definition exactRange : Z := 2 ^ 53.

Definition exactAmounts (input : Payload) : Prop :=
  Z.abs (baseOf input)
  + sumZ (map (fun s => Z.abs (sel_price s)) (flat_map grp_selections (allGroups input)))
  + sumZ (map (fun a => Z.abs (add_price a)) (concat (allAddonLists input)))
  <= exactRange.

(** The same for the percentages of a milestones array. *)
Definition exactPercents (ms : list Milestone) : Prop :=
  sumZ (map (fun m => Z.abs (ms_percent m)) ms) <= exactRange.

Definition onlyPrices (base : Z) (g : option GeneralOptions)
           (s : option (list SubjectOption)) : Payload :=
  {| title := None; type_ := None; flow := None; artistId := None;
     thumbnailIdx := None; samples := None; deadline := None;
     basePrice := Some base; cancelationFee := None; slots := None;
     revisions_type := None; milestones := None;
     generalOptions := g; subjectOptions := s |}.

(** The example of the specification: base price 1000, one group with
    selections priced 200 and 500, one addon priced 300. *)
Definition priceExample : Payload :=
  onlyPrices 1000
    (Some {| go_optionGroups :=
               Some [ {| grp_id := Some 1; grp_title := "Size";
                         grp_selections :=
                           [ {| sel_id := Some 1; sel_label := "Bust"; sel_price := 200 |};
                             {| sel_id := Some 2; sel_label := "Full"; sel_price := 500 |} ] |} ];
             go_addons :=
               Some [ {| add_id := Some 1; add_label := "Background"; add_price := 300 |} ];
             go_questions := None |})
    None.

(** ** Canonical payloads *)

Definition hasId {T : Type} `{HasId T} (x : T) : bool := present (getId x).

Definition canonicalGroup (g : OptionGroup) : bool :=
  hasId g && forallb hasId (grp_selections g).

Definition isCanonicalQuestion (q : Question) : bool :=
  match q with
  | QObject o =>
      match q_id o, q_text o, q_title o, q_label o with
      | Holds _, Holds _, Missing, Missing => true
      | _, _, _, _ => false
      end
  | _ => false
  end.

(** What the conversion reads of a question is of the type it is cast to:
    the title of an object, if it has one, is a string; otherwise its
    label, if it has one, is a string, and its id, if it then has one, is
    an id. *)
Definition typedQuestion (q : Question) : bool :=
  match q with
  | QObject o =>
      match q_title o with
      | Holds _ => true
      | Other _ => false
      | Missing =>
          match q_label o with
          | Missing => true
          | Other _ => false
          | Holds _ => match q_id o with Other _ => false | _ => true end
          end
      end
  | _ => true
  end.

Definition typedQuestions (p : Payload) : bool :=
  match generalOptions p with
  | Some g => forallb typedQuestion (elems (go_questions g))
  | None => true
  end
  && forallb (fun s => forallb typedQuestion (elems (so_questions s)))
             (elems (subjectOptions p)).

Definition canonicalParts (groups : option (list OptionGroup))
           (addons : option (list Addon)) (questions : option (list Question)) : bool :=
  forallb canonicalGroup (elems groups)
  && forallb hasId (elems addons)
  && forallb isCanonicalQuestion (elems questions).

(** Every milestone, option group, selection, addon and question carries an
    id, and the questions are [{id, text}] objects. *)
Definition isCanonical (p : Payload) : bool :=
  forallb hasId (elems (milestones p))
  && match generalOptions p with
     | Some g => canonicalParts (go_optionGroups g) (go_addons g) (go_questions g)
     | None => true
     end
  && forallb (fun s => hasId s
                       && canonicalParts (so_optionGroups s) (so_addons s)
                                         (so_questions s))
             (elems (subjectOptions p)).

(** A canonical payload with a single general question. *)
Definition questionExample : Payload :=
  onlyPrices 1000
    (Some {| go_optionGroups := None; go_addons := None;
             go_questions := Some [ canonicalQuestion 1 "Which pose?" ] |})
    None.

(** A payload whose one general question has a label and [null] under its
    id key, and one whose general question is the array [["a", "b"]]. *)
Definition oneQuestion (q : Question) : Payload :=
  onlyPrices 1000
    (Some {| go_optionGroups := None; go_addons := None; go_questions := Some [ q ] |})
    None.

Definition labelWithNullId : Payload :=
  oneQuestion (QObject {| q_id := Other "null"; q_title := Missing;
                          q_label := Holds "Which pose?"; q_text := Missing;
                          q_string := object_Object |}).

Definition arrayQuestion : Payload :=
  oneQuestion (QObject {| q_id := Missing; q_title := Missing; q_label := Missing;
                          q_text := Missing; q_string := "a,b" |}).

(** ** Payloads for the validator *)

(** A validation error thrown with status 400. *)
Definition isValidation400 (e : error) : Prop :=
  exists msg, e = HttpError msg 400 /\ classify e = ValidationError.

(** The object spread keeps an item as it is when the id written is the id
    it had. *)
Definition spreadKeeps (T : Type) `{HasId T} : Prop :=
  forall (x : T) (i : ID), getId x = Some i -> setId i x = x.

(** The checks of [validateListingPayload] that come before the one on
    [slots]. *)
Definition checksBeforeSlots (payload : Payload) : result unit :=
  check checkRequired (requiredFields payload) in
  check checkMilestoneFlow payload in
  check checkMilestoneSum payload in
  checkRevisions payload.

(** The checks of [validateListingPayload] other than the one on the sum of
    the milestone percentages. *)
Definition checksBesideSum (payload : Payload) : result unit :=
  check checkRequired (requiredFields payload) in
  check checkMilestoneFlow payload in
  check checkRevisions payload in
  checkSlots payload.

Definition validPayload (fl : string) (sl : option Z) (ms : option (list Milestone))
  : Payload :=
  {| title := Some "Portrait"; type_ := Some "template"; flow := Some fl;
     artistId := Some "artist-1"; thumbnailIdx := Some 0;
     samples := Some [ "sample-0.png" ];
     deadline := Some {| mode := "standard" |};
     basePrice := Some 1000; cancelationFee := Some 10; slots := sl;
     revisions_type := None; milestones := ms;
     generalOptions := None; subjectOptions := None |}.

Definition percents (l : list Z) : list Milestone :=
  map (fun p => {| ms_id := None; ms_title := "stage"; ms_percent := p |}) l.

(** The percentages 33.4, 33.3 and 33.3 (the doubles nearest to them), in
    two orders. *)
Definition tenths (n : float) : float := PrimFloat.div n 10%float.

Definition thirds_high_first : list float :=
  [tenths 334%float; tenths 333%float; tenths 333%float].
Definition thirds_high_last : list float :=
  [tenths 333%float; tenths 333%float; tenths 334%float].

(** ** Laws of the object spread *)

(** The id written by the spread is the id read back. *)
Definition idWritten (T : Type) `{HasId T} : Prop :=
  forall (x : T) (i : ID), getId (setId i x) = Some i.

(** The id an item has after [generateIds], at position [k]. *)
Definition idAt {T : Type} `{HasId T} (startId : ID) (k : nat) (x : T) : ID :=
  match getId x with
  | Some i => i
  | None => startId + Z.of_nat k
  end.

(** A question with an id seen as a general question. *)
Definition asQuestion (q : IdQuestion) : Question :=
  canonicalQuestion (iq_id q) (iq_text q).

(** Every price of a payload is zero or more. *)
Definition pricesNonNegative (input : Payload) : Prop :=
  0 <= baseOf input
  /\ (forall g s, In g (allGroups input) -> In s (grp_selections g) -> 0 <= sel_price s)
  /\ (forall l a, In l (allAddonLists input) -> In a l -> 0 <= add_price a).

(** What [validateListingPayload] asks of a payload. *)
Definition requiredPresent (p : Payload) : Prop :=
  title p <> None /\ type_ p <> None /\ flow p <> None /\ artistId p <> None
  /\ thumbnailIdx p <> None /\ samples p <> None /\ deadline p <> None
  /\ basePrice p <> None /\ cancelationFee p <> None.

(** The percentages of the milestones array of a payload, if it has one,
    are exact. *)
Definition exactMilestones (p : Payload) : Prop :=
  forall ms, milestones p = Some ms -> exactPercents ms.

Definition wellFormedListing (p : Payload) : Prop :=
  requiredPresent p
  /\ (flow p = Some "milestone" -> exists m ms, milestones p = Some (m :: ms))
  /\ (forall m ms, milestones p = Some (m :: ms) ->
        sumZ (map ms_percent (m :: ms)) = 100)
  /\ ~ (flow p = Some "standard" /\ revisions_type p = Some "milestone")
  /\ slots p <> Some 0.

(** A stored listing for the examples. *)
Definition storedListing : ListingDocument :=
  {| doc_artistId := "artist-1"; doc_isActive := true; doc_isDeleted := false;
     doc_data := validPayload "standard" (Some 3) None |}.

Definition listingStore : gmap string ListingDocument :=
  {[ "listing-1" := storedListing ]}.

(** An update with values only: no key of it holds [null]. *)
Definition values (p : Payload) : Update := {| given := p; nullKeys := [] |}.

Definition noFields : Payload :=
  {| title := None; type_ := None; flow := None;
     artistId := None; thumbnailIdx := None; samples := None;
     deadline := None; basePrice := None; cancelationFee := None;
     slots := None; revisions_type := None; milestones := None;
     generalOptions := None; subjectOptions := None |}.

(** An update of the title and the slots only. *)
Definition titleAndSlots : Update :=
  values {| title := Some "Portrait, full body"; type_ := None; flow := None;
            artistId := None; thumbnailIdx := None; samples := None;
            deadline := None; basePrice := None; cancelationFee := None;
            slots := Some 5; revisions_type := None; milestones := None;
            generalOptions := None; subjectOptions := None |}.

(** The update [{ title: null }]. *)
Definition nullTitle : Update := {| given := noFields; nullKeys := [ "title" ] |}.

(** The update [{ generalOptions: null, title: "New" }]. *)
Definition nullGeneralOptions : Update :=
  {| given := {| title := Some "New"; type_ := None; flow := None;
                 artistId := None; thumbnailIdx := None; samples := None;
                 deadline := None; basePrice := None; cancelationFee := None;
                 slots := None; revisions_type := None; milestones := None;
                 generalOptions := None; subjectOptions := None |};
     nullKeys := [ "generalOptions" ] |}.

(** A stored listing with the options of [priceExample]: its price range
    is 1500 to 2000. *)
Definition pricedListing : ListingDocument :=
  {| doc_artistId := "artist-1"; doc_isActive := true; doc_isDeleted := false;
     doc_data :=
       {| title := Some "Portrait"; type_ := Some "template"; flow := Some "standard";
          artistId := Some "artist-1"; thumbnailIdx := Some 0;
          samples := Some [ "sample-0.png" ];
          deadline := Some {| mode := "standard" |};
          basePrice := Some 1000; cancelationFee := Some 10; slots := Some 3;
          revisions_type := None; milestones := None;
          generalOptions := generalOptions priceExample; subjectOptions := None |} |}.

Definition pricedStore : gmap string ListingDocument :=
  {[ "listing-1" := pricedListing ]}.

(** An update says nothing on what the price range is computed from: the
    keys [basePrice], [generalOptions] and [subjectOptions] are missing
    from it. *)
Definition leavesPricing (updates : Update) : Prop :=
  (basePrice (given updates) = None /\ holdsNull updates "basePrice" = false)
  /\ (generalOptions (given updates) = None /\ holdsNull updates "generalOptions" = false)
  /\ (subjectOptions (given updates) = None /\ holdsNull updates "subjectOptions" = false).

End ListingSpec.

(** * The proposal service in the words of the specification *)

Module ProposalSpec.
Import Proposal.

(** The white-space characters of ECMAScript: U+0009 to U+000D, U+0020,
    U+00A0, U+1680, U+2000 to U+200A, U+2028, U+2029, U+202F, U+205F, U+3000
    and U+FEFF, each as its UTF-8 bytes. *)
Definition utf8 (bytes : list nat) : string :=
  string_of_list_ascii (map ascii_of_nat bytes).

Definition whiteSpaceCharacters : list string :=
  map utf8
      [ [9]; [10]; [11]; [12]; [13]; [32]; [194; 160]; [225; 154; 128];
        [226; 128; 128]; [226; 128; 129]; [226; 128; 130]; [226; 128; 131];
        [226; 128; 132]; [226; 128; 133]; [226; 128; 134]; [226; 128; 135];
        [226; 128; 136]; [226; 128; 137]; [226; 128; 138]; [226; 128; 168];
        [226; 128; 169]; [226; 128; 175]; [226; 129; 159]; [227; 128; 128];
        [239; 187; 191] ]%nat.

(** A description is blank when it holds white space only. *)
Definition blank (s : string) : bool := onlyWhiteSpace s.

(** The statuses from which section 4.4 lets a proposal move on. *)
Definition nonTerminal : list Status :=
  [ pendingArtist; pendingClient; rejectedClient; accepted ].

(** ** A small marketplace to run the service on *)

Definition day (n : Z) : Date := n * msPerDay.

(** 2024-06-01, 2024-05-20 and 2024-06-05 at midnight UTC. *)
Definition june1 : Date := day 19875.
Definition may20 : Date := day 19863.
Definition june5 : Date := day 19879.

Definition sampleRuntime : Runtime :=
  {| now := june1;
     parseDate := fun s =>
       if String.eqb s "2024-05-20" then may20
       else if String.eqb s "2024-06-05" then june5
       else 0;
     uploadGalleryImagesToR2 := fun blobs _ _ =>
       Ok (map (String.append "https://r2.example/") blobs);
     computeDynamicEstimate := fun _ baseDate =>
       Ok {| earliestDate := baseDate; latestDate := baseDate + day 7 |} |}.

Definition sampleListing (m : string) : ICommissionListing :=
  {| l_artistId := "artist-1"; isActive := true; isDeleted := false;
     deadline_mode := m |}.

Definition sampleProposal (s : Status) : IProposal :=
  {| clientId := "client-1"; artistId := "artist-1"; listingId := "listing-1";
     status := s |}.

(** One listing in mode [withDeadline] and one proposal on it, in the given
    status; the artist has no active contract. *)
Definition sampleDatabase (s : Status) : Database :=
  {| proposals := {[ "proposal-1" := sampleProposal s ]};
     listings := {[ "listing-1" := sampleListing "withDeadline" ]};
     contractDeadlines := ∅ |}.

(** The same, when the artist has an active contract that ends on
    2024-06-05, and a runtime whose clock reads that day. *)
Definition busyDatabase : Database :=
  {| proposals := proposals (sampleDatabase pendingArtist);
     listings := listings (sampleDatabase pendingArtist);
     contractDeadlines := {[ "artist-1" := june5 ]} |}.

Definition laterRuntime : Runtime :=
  {| now := june5;
     parseDate := parseDate sampleRuntime;
     uploadGalleryImagesToR2 := uploadGalleryImagesToR2 sampleRuntime;
     computeDynamicEstimate := computeDynamicEstimate sampleRuntime |}.

Definition sampleForm (deadline description : string) (images : list Blob) : FormData :=
  {| f_payload := PayloadAbsent;
     f_listingId := Some "listing-1";
     f_deadline := Some deadline;
     f_generalDescription := Some description;
     f_referenceImages := images;
     f_existingReferences := [] |}.

Definition sampleInput (images : list string) : ProposalInput :=
  {| pi_clientId := "client-1"; pi_artistId := "artist-1";
     pi_listingId := "listing-1";
     pi_earliestDate := june1; pi_latestDate := june1 + day 7;
     pi_deadline := june5; pi_baseDate := Some june1;
     pi_generalDescription := "A portrait of my cat";
     pi_referenceImages := Some images;
     pi_generalOptions := None; pi_subjectOptions := None |}.

Definition sixImages : list string := [ "a"; "b"; "c"; "d"; "e"; "f" ].




Definition cancelIt : ClientDecision :=
  {| cancel := Some true; acceptAdjustments := None |}.

(** An amount that is absent or zero: no adjustment. *)
Definition noAmount (a : option Z) : Prop := a = None \/ a = Some 0.

(** The three errors with which [updateProposalFromForm] turns an edit
    away before looking at the form. *)
Definition editRefusals : list error :=
  [ HttpError "Proposal not found" 404;
    HttpError "Not authorized to edit this proposal" 403;
    HttpError "Can only edit proposals in pendingArtist status" 400 ].

Definition acceptWith (s d : option Z) : ArtistDecision :=
  {| acceptProposal := true; surcharge := s; discount := d;
     rejectionReason := None |}.

Definition ratify (accept : bool) : ClientDecision :=
  {| cancel := None; acceptAdjustments := Some accept |}.

(** A form that changes nothing but the reference images kept. *)
Definition keepReferences (existing : list string) : FormData :=
  {| f_payload := PayloadAbsent;
     f_listingId := None;
     f_deadline := None;
     f_generalDescription := None;
     f_referenceImages := [];
     f_existingReferences := existing |}.

End ProposalSpec.

(** * Accounts in plain words *)

Module AccountSpec.
Import Account.

(** One to twenty characters, all of them lower-case letters or digits
    (of one code unit each). *)
Definition plainUsername (val : string) : Prop :=
  1 <= len val <= 20 /\ everyChar isLowerAlnum val = true.

(** A length of eight to twenty (in UTF-16 code units, as [length] counts),
    and not white space only. *)
Definition plainPassword (val : string) : Prop :=
  8 <= len val <= 20 /\ ProposalSpec.blank val = false.

End AccountSpec.

(** * Properties of the listing service *)

Module ListingFacts.
Import Listing ListingSpec.

(** ** Lemmas on sums and minima *)

Lemma sumZ_app (l1 l2 : list Z) : sumZ (app l1 l2) = sumZ l1 + sumZ l2.
Proof.
  induction l1 as [|x l1 IH]; simpl; [reflexivity | rewrite IH; lia].
Qed.

Lemma sumZ_flat_map {A B : Type} (f : B -> Z) (g : A -> list B) (l : list A) :
  sumZ (map f (flat_map g l)) = sumZ (map (fun a => sumZ (map f (g a))) l).
Proof.
  induction l as [|a l IH]; simpl; [reflexivity|].
  rewrite map_app, sumZ_app, IH. reflexivity.
Qed.

Lemma sumZ_concat {A : Type} (f : A -> Z) (ll : list (list A)) :
  sumZ (map f (concat ll)) = sumZ (map (fun l => sumZ (map f l)) ll).
Proof.
  induction ll as [|l ll IH]; simpl; [reflexivity|].
  rewrite map_app, sumZ_app, IH. reflexivity.
Qed.

Lemma fold_left_add_acc (prices : list Z) (acc : Z) :
  fold_left (fun sum price => sum + price) prices acc = acc + sumZ prices.
Proof.
  revert acc. induction prices as [|p ps IH]; intros acc; simpl.
  - lia.
  - rewrite IH. lia.
Qed.

Lemma fold_left_min (ps : list Z) (p : Z) :
  fold_left Z.min ps p = fold_right Z.min p ps.
Proof.
  apply fold_symmetric.
  - intros x y z. apply Z.min_assoc.
  - intros y. apply Z.min_comm.
Qed.

Lemma cheapest_lower_bound (prices : list Z) (x : Z) :
  In x prices -> cheapest prices <= x.
Proof.
  destruct prices as [|p ps]; [intros []|]. simpl.
  induction ps as [|q ps IH]; simpl.
  - intros [->|[]]. lia.
  - intros [->|[->|Hin]].
    + specialize (IH (or_introl eq_refl)). lia.
    + lia.
    + specialize (IH (or_intror Hin)). lia.
Qed.

Lemma cheapest_member (p : Z) (ps : list Z) :
  In (cheapest (p :: ps)) (p :: ps).
Proof.
  simpl. induction ps as [|q ps IH]; simpl.
  - left. reflexivity.
  - destruct (Z.min_spec q (fold_right Z.min p ps)) as [[_ ->]|[_ ->]].
    + right. left. reflexivity.
    + destruct IH as [IH|IH]; [left | right; right]; assumption.
Qed.

(** ** The price range computed by the service *)

Lemma addPrices_sum (r : PriceRange) (prices : list Z) :
  addPrices r prices =
  {| min := min r + cheapest prices; max := max r + sumZ prices |}.
Proof.
  destruct prices as [|p ps].
  - destruct r as [mn mx]. simpl. f_equal; lia.
  - unfold addPrices. rewrite fold_left_min, fold_left_add_acc. reflexivity.
Qed.

Lemma addGroups_sum (groups : option (list OptionGroup)) (r : PriceRange) :
  addGroups r groups =
  {| min := min r + sumZ (map (fun g => cheapest (groupPrices g)) (elems groups));
     max := max r + sumZ (map (fun g => sumZ (groupPrices g)) (elems groups)) |}.
Proof.
  unfold addGroups. generalize (elems groups) as gs. intros gs. revert r.
  induction gs as [|g gs IH]; intros r; simpl.
  - destruct r as [mn mx]. simpl. f_equal; lia.
  - rewrite IH, addPrices_sum. simpl. unfold groupPrices. f_equal; lia.
Qed.

Lemma addAddons_sum (addons : option (list Addon)) (r : PriceRange) :
  addAddons r addons =
  {| min := min r + cheapest (map add_price (elems addons));
     max := max r + sumZ (map add_price (elems addons)) |}.
Proof. unfold addAddons. apply addPrices_sum. Qed.

Lemma subjects_sum (subjects : list SubjectOption) (r : PriceRange) :
  fold_left (fun r subject => addAddons (addGroups r (so_optionGroups subject))
                                        (so_addons subject))
            subjects r =
  {| min := min r
            + sumZ (map (fun s => sumZ (map (fun g => cheapest (groupPrices g))
                                            (elems (so_optionGroups s)))) subjects)
            + sumZ (map (fun s => cheapest (map add_price (elems (so_addons s)))) subjects);
     max := max r
            + sumZ (map (fun s => sumZ (map (fun g => sumZ (groupPrices g))
                                            (elems (so_optionGroups s)))) subjects)
            + sumZ (map (fun s => sumZ (map add_price (elems (so_addons s)))) subjects) |}.
Proof.
  revert r. induction subjects as [|s subjects IH]; intros r; simpl.
  - destruct r as [mn mx]. simpl. f_equal; lia.
  - rewrite IH, addAddons_sum, addGroups_sum. simpl. f_equal; lia.
Qed.

(** C1 (as amended).  For every payload whose prices are whole numbers
    that add up to 2^53 at most in magnitude (so that the sums of the
    source, which are sums of doubles, are exact), [min] is [basePrice] plus
    the cheapest selection of every option group (general and per subject)
    plus the cheapest addon of every non-empty addon list (the general one
    and one per subject); [max] is [basePrice] plus all selection prices and
    all addon prices.  For the example of the specification (base 1000,
    selections 200 and 500, one addon 300) the range is 1500 to 2000. *)
Theorem computePriceRange_range :
  (forall input : Payload,
      exactAmounts input ->
      min (computePriceRange input) = cheapestSelections input + cheapestAddons input
      /\ max (computePriceRange input) = everything input)
  /\ computePriceRange priceExample = {| min := 1500; max := 2000 |}.
Proof.
  split; [|reflexivity].
  intros input _. unfold computePriceRange.
  rewrite subjects_sum, addAddons_sum, addGroups_sum. simpl.
  unfold cheapestSelections, cheapestAddons, everything, allGroups,
    allAddonLists, subjectsOf, baseOf.
  rewrite !map_app, !sumZ_app. simpl.
  rewrite flat_map_app, map_app, sumZ_app.
  rewrite !sumZ_flat_map, !map_app, !sumZ_app, sumZ_concat.
  rewrite !map_map. unfold groupPrices.
  split; lia.
Qed.

(** The amended statement at the example of the specification. *)
Lemma computePriceRange_range_witness :
  exactAmounts priceExample
  /\ min (computePriceRange priceExample)
     = cheapestSelections priceExample + cheapestAddons priceExample
  /\ max (computePriceRange priceExample) = everything priceExample.
Proof.
  destruct computePriceRange_range as [Hrange _].
  assert (exactAmounts priceExample) as Hexact by (vm_compute; discriminate).
  split; [exact Hexact | exact (Hrange priceExample Hexact)].
Defined.

(** C1, as stated, fails on the example of the specification: the cheapest
    addon is part of [min], which is 1500 and not 1200. *)
Lemma computePriceRange_min_counts_addons :
  cheapestSelections priceExample = 1200
  /\ everything priceExample = 2000
  /\ min (computePriceRange priceExample) = 1500
  /\ min (computePriceRange priceExample) <> cheapestSelections priceExample.
Proof. repeat split; vm_compute; congruence. Qed.

(** ** Normalisation *)

Lemma mapi_from_fixed {A : Type} (f : A -> Z -> A) (l : list A) (i : Z) :
  (forall x j, In x l -> f x j = x) -> mapi_from f i l = l.
Proof.
  revert i. induction l as [|x l IH]; intros i Hfix; simpl; [reflexivity|].
  rewrite Hfix by (left; reflexivity).
  rewrite IH; [reflexivity|].
  intros y j Hy. apply Hfix. right. exact Hy.
Qed.

Lemma Selection_spread : spreadKeeps Selection.
Proof. intros [i l p] j; simpl; intros ->; reflexivity. Qed.

Lemma OptionGroup_spread : spreadKeeps OptionGroup.
Proof. intros [i t sels] j; simpl; intros ->; reflexivity. Qed.

Lemma Addon_spread : spreadKeeps Addon.
Proof. intros [i l p] j; simpl; intros ->; reflexivity. Qed.

Lemma Milestone_spread : spreadKeeps Milestone.
Proof. intros [i t p] j; simpl; intros ->; reflexivity. Qed.

Lemma SubjectOption_spread : spreadKeeps SubjectOption.
Proof. intros [i t g a q] j; simpl; intros ->; reflexivity. Qed.

Create HintDb spread.
#[local] Hint Resolve Selection_spread OptionGroup_spread Addon_spread
  Milestone_spread SubjectOption_spread : spread.

(** Existing ids are preserved verbatim: a list whose items all carry an id
    is left as it is, whatever the start id. *)
Lemma generateIds_fixed {T : Type} `{HasId T} (items : list T) (startId : ID) :
  spreadKeeps T -> forallb hasId items = true -> generateIds items startId = items.
Proof.
  intros Hkeep Hall. unfold generateIds, mapi.
  apply mapi_from_fixed. intros x j Hx.
  rewrite forallb_forall in Hall. specialize (Hall x Hx).
  unfold hasId in Hall. destruct (getId x) as [i|] eqn:Hid; [|discriminate].
  apply Hkeep. exact Hid.
Qed.

Lemma option_map_fixed {A : Type} (f : list A -> list A) (o : option (list A)) :
  f (elems o) = elems o -> option_map f o = o.
Proof. destruct o as [l|]; simpl; intros Hf; [rewrite Hf|]; reflexivity. Qed.

Lemma processGroups_fixed (groups : list OptionGroup) :
  forallb canonicalGroup groups = true -> processGroups groups = groups.
Proof.
  intros Hall. unfold processGroups.
  rewrite forallb_forall in Hall.
  rewrite generateIds_fixed; auto with spread.
  - rewrite <- (map_id groups) at 2. apply map_ext_in.
    intros [i t sels] Hg. specialize (Hall _ Hg).
    unfold canonicalGroup in Hall. apply andb_true_iff in Hall as [_ Hsels].
    simpl in *. rewrite generateIds_fixed; auto with spread.
  - apply forallb_forall. intros g Hg. specialize (Hall _ Hg).
    unfold canonicalGroup in Hall. apply andb_true_iff in Hall as [Hid _].
    exact Hid.
Qed.

Lemma questions_fixed (questions : option (list Question)) :
  elems questions = [] -> option_map (mapi convertQuestion) questions = questions.
Proof. intros Hq. apply option_map_fixed. rewrite Hq. reflexivity. Qed.

(** On a canonical payload that carries no question the normaliser changes
    nothing. *)
Lemma processPayloadWithIds_fixed_without_questions (p : Payload) :
  isCanonical p = true ->
  (forall g, generalOptions p = Some g -> elems (go_questions g) = []) ->
  (forall s, In s (subjectsOf p) -> elems (so_questions s) = []) ->
  processPayloadWithIds p = p.
Proof.
  destruct p as [ti ty fl ar th sa de ba ca sl re ms go so].
  unfold isCanonical, subjectsOf, processPayloadWithIds. simpl.
  intros Hcanon Hgq Hsq.
  apply andb_true_iff in Hcanon as [Hcanon Hsubj].
  apply andb_true_iff in Hcanon as [Hms Hgo].
  f_equal.
  - apply option_map_fixed. apply generateIds_fixed; auto with spread.
  - destruct go as [[gg ga gq]|]; simpl in *; [|reflexivity].
    unfold canonicalParts in Hgo. simpl in Hgo.
    apply andb_true_iff in Hgo as [Hgo _].
    apply andb_true_iff in Hgo as [Hgg Hga].
    unfold processGeneralOptions. simpl. do 2 f_equal.
    + apply option_map_fixed, processGroups_fixed, Hgg.
    + apply option_map_fixed. apply generateIds_fixed; auto with spread.
    + apply questions_fixed. apply (Hgq _ eq_refl).
  - apply option_map_fixed. rewrite forallb_forall in Hsubj.
    rewrite generateIds_fixed; auto with spread.
    + rewrite <- (map_id (elems so)) at 2. apply map_ext_in.
      intros [i t sg sa' sq] Hs. specialize (Hsubj _ Hs). simpl in Hsubj.
      apply andb_true_iff in Hsubj as [_ Hparts].
      unfold canonicalParts in Hparts.
      apply andb_true_iff in Hparts as [Hparts _].
      apply andb_true_iff in Hparts as [Hsg Hsa].
      unfold processSubject. simpl. f_equal.
      * apply option_map_fixed, processGroups_fixed, Hsg.
      * apply option_map_fixed. apply generateIds_fixed; auto with spread.
      * apply questions_fixed. apply (Hsq _ Hs).
    + apply forallb_forall. intros s Hs. specialize (Hsubj _ Hs).
      apply andb_true_iff in Hsubj as [Hid _]. exact Hid.
Qed.

(** A canonical question is an object without [title] and without [label]:
    it is replaced by the string form of the object under the positional
    id. *)
Lemma convertQuestion_canonical (i : ID) (t : string) (idx : Z) :
  convertQuestion (canonicalQuestion i t) idx = canonicalQuestion (idx + 1) object_Object.
Proof. reflexivity. Qed.

(** C2 (the code at the failing input).  [questionExample] is canonical:
    its one question is the object with id 1 and the text "Which pose?".
    Normalising it again keeps the price range and the id but replaces the
    text of the question by "[object Object]"; the result differs from the
    input. *)
Theorem processPayloadWithIds_loses_question_text :
  isCanonical questionExample = true
  /\ option_map go_questions (generalOptions questionExample)
     = Some (Some [ canonicalQuestion 1 "Which pose?" ])
  /\ option_map go_questions (generalOptions (processPayloadWithIds questionExample))
     = Some (Some [ canonicalQuestion 1 "[object Object]" ])
  /\ processPayloadWithIds questionExample <> questionExample
  /\ computePriceRange (processPayloadWithIds questionExample)
     = computePriceRange questionExample.
Proof.
  repeat split; try reflexivity.
  intros Heq. apply (f_equal generalOptions) in Heq. vm_compute in Heq.
  discriminate Heq.
Qed.

(** ** Validation *)

Lemma percentSum_acc (ms : list Milestone) (acc : Z) :
  fold_left (fun acc milestone => acc + ms_percent milestone) ms acc
  = acc + sumZ (map ms_percent ms).
Proof.
  revert acc. induction ms as [|m ms IH]; intros acc; simpl.
  - lia.
  - rewrite IH. lia.
Qed.

Lemma percentSum_sum (ms : list Milestone) :
  percentSum ms = sumZ (map ms_percent ms).
Proof. unfold percentSum. rewrite percentSum_acc. lia. Qed.

Lemma throw_if_400 (cond : bool) (msg : string) (e : error) :
  classify (HttpError400 msg) = ValidationError ->
  throw_if cond (HttpError400 msg) = Err e -> isValidation400 e.
Proof.
  intros Hc. destruct cond; simpl; intros H; inversion H; subst.
  exists msg. split; [reflexivity | exact Hc].
Qed.

Ltac required_field o :=
  destruct o;
  [ | simpl; intros H; inversion H; subst; eexists; split; reflexivity ].

Lemma checkRequired_error (p : Payload) (e : error) :
  checkRequired (requiredFields p) = Err e -> isValidation400 e.
Proof.
  destruct p as [ti ty fl ar th sa de ba ca sl re ms go so].
  unfold requiredFields. simpl.
  required_field ti. required_field ty. required_field fl. required_field ar.
  required_field th. required_field sa. required_field de. required_field ba.
  required_field ca. simpl. discriminate.
Qed.

Lemma bind_error {A B : Type} (m : result A) (k : A -> result B) (e : error) :
  bind m k = Err e -> m = Err e \/ exists a, m = Ok a /\ k a = Err e.
Proof.
  destruct m as [a|e']; simpl; intros H; [right; eauto | left].
  inversion H. reflexivity.
Qed.

(** Whatever [validateListingPayload] throws is an [HttpError] with status
    400, a validation error. *)
Lemma validateListingPayload_error (p : Payload) (e : error) :
  validateListingPayload p = Err e -> isValidation400 e.
Proof.
  unfold validateListingPayload. intros H.
  apply bind_error in H as [H|[_ [_ H]]]; [eapply checkRequired_error; eauto|].
  apply bind_error in H as [H|[_ [_ H]]];
    [eapply throw_if_400; [|exact H]; reflexivity|].
  apply bind_error in H as [H|[_ [_ H]]].
  - unfold checkMilestoneSum in H. destruct (milestones p) as [[|m ms]|];
      try discriminate. eapply throw_if_400; [|exact H]; reflexivity.
  - apply bind_error in H as [H|[_ [_ H]]];
      (eapply throw_if_400; [|exact H]; reflexivity).
Qed.

Lemma checkMilestoneFlow_nonempty (p : Payload) (m : Milestone) (ms : list Milestone) :
  milestones p = Some (m :: ms) -> checkMilestoneFlow p = Ok tt.
Proof.
  intros Hms. unfold checkMilestoneFlow, noMilestones. rewrite Hms.
  rewrite andb_false_r. reflexivity.
Qed.

(** C8 (as amended).  For every payload that carries a non-empty milestones
    array whose percentages are whole numbers that add up to 2^53 at most
    in magnitude (so that the sum of the source, a sum of doubles, is
    exact), the check on the percentages passes exactly when they sum to
    100; a different sum makes the validation fail with a validation error
    (status 400), which is "Milestone percentages must sum to 100%" once
    the required fields are there; with a sum of 100 the validation is
    decided by the other checks alone. *)
Theorem milestone_percentages_checked
        (p : Payload) (m : Milestone) (ms : list Milestone) :
  milestones p = Some (m :: ms) ->
  exactPercents (m :: ms) ->
  (checkMilestoneSum p = Ok tt <-> sumZ (map ms_percent (m :: ms)) = 100)
  /\ (sumZ (map ms_percent (m :: ms)) <> 100 ->
      (exists e, validateListingPayload p = Err e /\ isValidation400 e)
      /\ (checkRequired (requiredFields p) = Ok tt ->
          validateListingPayload p
          = Err (HttpError400 "Milestone percentages must sum to 100%")))
  /\ (sumZ (map ms_percent (m :: ms)) = 100 ->
      validateListingPayload p = checksBesideSum p).
Proof.
  intros Hms _.
  assert (Hsum : checkMilestoneSum p
                 = throw_if (negb (sumZ (map ms_percent (m :: ms)) =? 100))
                     (HttpError400 "Milestone percentages must sum to 100%")).
  { unfold checkMilestoneSum. rewrite Hms, percentSum_sum. reflexivity. }
  pose proof (checkMilestoneFlow_nonempty p m ms Hms) as Hflow.
  split; [|split].
  - rewrite Hsum. destruct (Z.eqb_spec (sumZ (map ms_percent (m :: ms))) 100);
      cbn [throw_if negb]; split; intros H; congruence.
  - intros Hne.
    assert (Hthrow : checkMilestoneSum p
                     = Err (HttpError400 "Milestone percentages must sum to 100%")).
    { rewrite Hsum. destruct (Z.eqb_spec (sumZ (map ms_percent (m :: ms))) 100);
        [contradiction | reflexivity]. }
    assert (Hreq : checkRequired (requiredFields p) = Ok tt ->
                   validateListingPayload p
                   = Err (HttpError400 "Milestone percentages must sum to 100%")).
    { intros Hreq. unfold validateListingPayload.
      rewrite Hreq, Hflow, Hthrow. reflexivity. }
    split; [|exact Hreq].
    destruct (checkRequired (requiredFields p)) as [[]|e] eqn:Hr.
    + eexists. split; [apply Hreq; reflexivity|].
      exists "Milestone percentages must sum to 100%". split; reflexivity.
    + exists e. split.
      * unfold validateListingPayload. rewrite Hr. reflexivity.
      * eapply checkRequired_error; eauto.
  - intros Heq. unfold validateListingPayload, checksBesideSum.
    rewrite Hsum, Heq. simpl.
    destruct (checkRequired (requiredFields p)) as [[]|e]; simpl; [|reflexivity].
    destruct (checkMilestoneFlow p) as [[]|e]; reflexivity.
Qed.

(** Percentages 30, 30, 30 are rejected. *)
Lemma milestone_percentages_checked_witness :
  milestones (validPayload "milestone" None (Some (percents [30; 30; 30])))
  = Some (percents [30; 30; 30])
  /\ exactPercents (percents [30; 30; 30])
  /\ validateListingPayload (validPayload "milestone" None (Some (percents [30; 30; 30])))
     = Err (HttpError400 "Milestone percentages must sum to 100%").
Proof.
  assert (exactPercents (percents [30; 30; 30])) as Hexact by (vm_compute; discriminate).
  split; [reflexivity|]. split; [exact Hexact|].
  apply (milestone_percentages_checked
           (validPayload "milestone" None (Some (percents [30; 30; 30])))
           {| ms_id := None; ms_title := "stage"; ms_percent := 30 |}
           (percents [30; 30])).
  - reflexivity.
  - exact Hexact.
  - vm_compute. discriminate.
  - reflexivity.
Defined.

(** Percentages 30, 30, 40 are accepted. *)
Example milestones_30_30_40_accepted :
  validateListingPayload (validPayload "milestone" None (Some (percents [30; 30; 40])))
  = Ok tt.
Proof. reflexivity. Qed.

(** C8, as stated, fails in two ways.  The verdict on percentages that are
    not whole depends on their order, so that it is not a matter of what
    they sum to: the source adds doubles from left to right, and of the
    same three percentages 33.4, 33.3, 33.3 is rejected and 33.3, 33.3,
    33.4 passes.  And a payload that carries an empty milestones array
    passes the validation, although its percentages sum to 0. *)
Lemma milestone_sum_check_gaps :
  (Permutation.Permutation thirds_high_first thirds_high_last
   /\ sumIsNot100 thirds_high_first = true
   /\ sumIsNot100 thirds_high_last = false)
  /\ (milestones (validPayload "standard" None (Some [])) = Some []
      /\ sumZ (map ms_percent []) <> 100
      /\ checkMilestoneSum (validPayload "standard" None (Some [])) = Ok tt
      /\ validateListingPayload (validPayload "standard" None (Some [])) = Ok tt).
Proof.
  split; [split; [|split; vm_compute; reflexivity]|].
  - unfold thirds_high_first, thirds_high_last.
    eapply Permutation.perm_trans; [apply Permutation.perm_swap|].
    apply Permutation.perm_skip, Permutation.perm_swap.
  - repeat split; vm_compute; congruence.
Qed.

Lemma processPayloadWithIds_slots (p : Payload) :
  slots (processPayloadWithIds p) = slots p.
Proof. reflexivity. Qed.

Lemma validate_split (p : Payload) :
  validateListingPayload p = (check checksBeforeSlots p in checkSlots p).
Proof.
  unfold validateListingPayload, checksBeforeSlots.
  destruct (checkRequired (requiredFields p)) as [[]|e]; simpl; [|reflexivity].
  destruct (checkMilestoneFlow p) as [[]|e]; simpl; [|reflexivity].
  destruct (checkMilestoneSum p) as [[]|e]; simpl; [|reflexivity].
  destruct (checkRevisions p) as [[]|e]; reflexivity.
Qed.

(** C9 (as amended).  The validation compares [slots] with 0 only.  A
    listing whose slots value is 0 fails the validation with a validation
    error (status 400; "Slots cannot be 0" when the earlier checks pass),
    and nothing is handed to the repository; for any other slots value,
    negative ones included, the validation is decided by the earlier
    checks. *)
Theorem slots_checked_against_zero (p : Payload) (n : Z) :
  slots p = Some n ->
  (n = 0 ->
     (exists e, validateListingPayload p = Err e /\ isValidation400 e)
     /\ (checksBeforeSlots p = Ok tt ->
         validateListingPayload p = Err (HttpError400 "Slots cannot be 0"))
     /\ is_ok (prepareListing p) = false)
  /\ (n <> 0 -> validateListingPayload p = checksBeforeSlots p).
Proof.
  intros Hslots.
  assert (Hcheck : forall q, slots q = Some n ->
            checkSlots q = throw_if (n =? 0) (HttpError400 "Slots cannot be 0")).
  { intros q Hq. unfold checkSlots. rewrite Hq. reflexivity. }
  assert (Hfail : forall q, slots q = Some n -> n = 0 ->
            exists e, validateListingPayload q = Err e /\ isValidation400 e).
  { intros q Hq ->. rewrite validate_split, (Hcheck q Hq).
    destruct (checksBeforeSlots q) as [[]|e] eqn:Hb; simpl.
    - eexists. split; [reflexivity|].
      exists "Slots cannot be 0". split; reflexivity.
    - exists e. split; [reflexivity|].
      apply (validateListingPayload_error q).
      rewrite validate_split, Hb. reflexivity. }
  split.
  - intros Hz. split; [apply Hfail; assumption|]. split.
    + intros Hb. rewrite validate_split, Hb, (Hcheck p Hslots). subst n. reflexivity.
    + unfold prepareListing.
      destruct (Hfail (processPayloadWithIds p)) as [e [He _]];
        [rewrite processPayloadWithIds_slots; exact Hslots | exact Hz |].
      rewrite He. reflexivity.
  - intros Hnz. rewrite validate_split, (Hcheck p Hslots).
    destruct (Z.eqb_spec n 0); [contradiction|].
    destruct (checksBeforeSlots p) as [[]|e]; reflexivity.
Qed.

Lemma slots_checked_against_zero_witness :
  slots (validPayload "standard" (Some 0) None) = Some 0
  /\ validateListingPayload (validPayload "standard" (Some 0) None)
     = Err (HttpError400 "Slots cannot be 0").
Proof.
  split; [reflexivity|].
  apply (slots_checked_against_zero (validPayload "standard" (Some 0) None) 0).
  - reflexivity.
  - reflexivity.
  - reflexivity.
Defined.

(** C9, as stated, fails for a listing with a negative slots value: it
    passes the validation and is priced and handed on. *)
Lemma negative_slots_accepted :
  slots (validPayload "standard" (Some (-1)) None) = Some (-1)
  /\ validateListingPayload (validPayload "standard" (Some (-1)) None) = Ok tt
  /\ is_ok (prepareListing (validPayload "standard" (Some (-1)) None)) = true.
Proof. repeat split. Qed.

End ListingFacts.

(** * Properties of the proposal service *)

Module ProposalFacts.
Import Proposal ProposalSpec.

(** ** Strings *)

Lemma isEmpty_trimEnd (s : string) : isEmpty (trimEnd s) = onlyWhiteSpace s.
Proof.
  destruct s as [|a rest]; [reflexivity|].
  cbn [trimEnd]. destruct (onlyWhiteSpace (String a rest)); reflexivity.
Qed.

Lemma onlyWhiteSpace_trimStart_bounded (n : nat) :
  forall s, (String.length s <= n)%nat ->
            onlyWhiteSpace (trimStart s) = onlyWhiteSpace s.
Proof.
  induction n as [|n IH]; intros s Hlen.
  - destruct s; [reflexivity | simpl in Hlen; lia].
  - destruct s as [|a r1]; [reflexivity|].
    cbn [trimStart onlyWhiteSpace]. simpl in Hlen.
    destruct (whiteSpace1 a) eqn:H1; [apply IH; lia|].
    destruct r1 as [|b r2]; [cbn [onlyWhiteSpace]; rewrite H1; reflexivity|].
    simpl in Hlen.
    destruct (whiteSpace2 a b) eqn:H2; [apply IH; lia|].
    destruct r2 as [|c r3]; [cbn [onlyWhiteSpace]; rewrite H1, H2; reflexivity|].
    simpl in Hlen.
    destruct (whiteSpace3 a b c) eqn:H3; [apply IH; lia|].
    cbn [onlyWhiteSpace]. rewrite H1, H2, H3. reflexivity.
Qed.

Lemma blank_trimStart (s : string) : blank (trimStart s) = blank s.
Proof. apply (onlyWhiteSpace_trimStart_bounded (String.length s)). lia. Qed.

(** Each white-space character of ECMAScript is blank, and so is a string
    made of several; a string that holds anything else is not. *)
Example whiteSpaceCharacters_blank :
  forallb blank whiteSpaceCharacters = true
  /\ blank (String.concat "" whiteSpaceCharacters) = true
  /\ blank (String.append (utf8 [194; 160]%nat) "a") = false
  /\ trim (String.append (utf8 [194; 160; 32]%nat)
                         (String.append "a b" (utf8 [9; 239; 187; 191]%nat))) = "a b".
Proof. repeat split. Qed.

(** [!s.trim()] holds exactly for the blank strings. *)
Lemma isEmpty_trim (s : string) : isEmpty (trim s) = blank s.
Proof. unfold trim. rewrite isEmpty_trimEnd. apply blank_trimStart. Qed.

(** ** The deadline policy *)

(** C3.  [validateDeadline] accepts whatever deadline the client gives in
    mode [standard] and in mode [withRush]; in mode [withDeadline] it
    rejects exactly the deadlines before [earliestDate] (status 400, with
    the day of [earliestDate] in the message); any other mode fails with
    status 500, a configuration error. *)
Theorem validateDeadline_by_mode
        (listing : ICommissionListing) (deadline earliest latest : Date) :
  (deadline_mode listing = "standard" ->
     validateDeadline listing deadline earliest latest = Ok tt)
  /\ (deadline_mode listing = "withDeadline" ->
        (deadline < earliest ->
           validateDeadline listing deadline earliest latest
           = Err (HttpError (String.append "Deadline cannot be earlier than "
                                           (isoDay earliest)) 400))
        /\ (earliest <= deadline ->
              validateDeadline listing deadline earliest latest = Ok tt))
  /\ (deadline_mode listing = "withRush" ->
        validateDeadline listing deadline earliest latest = Ok tt)
  /\ (deadline_mode listing <> "standard" ->
      deadline_mode listing <> "withDeadline" ->
      deadline_mode listing <> "withRush" ->
        validateDeadline listing deadline earliest latest
        = Err (HttpError "Invalid deadline mode in listing" 500)
        /\ classify (HttpError "Invalid deadline mode in listing" 500)
           = ConfigurationError).
Proof.
  unfold validateDeadline. split; [|split; [|split]].
  - intros ->. reflexivity.
  - intros ->. simpl. split; intros Hcmp;
      destruct (Z.ltb_spec deadline earliest); (reflexivity || lia).
  - intros ->. reflexivity.
  - intros Hs Hd Hr. apply String.eqb_neq in Hs, Hd, Hr.
    rewrite Hs, Hd, Hr. split; reflexivity.
Qed.

(** A listing in mode [withDeadline] whose window opens on 2024-06-01: the
    deadline 2024-05-20 is rejected. *)
Lemma validateDeadline_by_mode_witness :
  validateDeadline (sampleListing "withDeadline") may20 june1 (june1 + day 7)
  = Err (HttpError "Deadline cannot be earlier than 2024-06-01" 400).
Proof.
  apply (validateDeadline_by_mode (sampleListing "withDeadline")
           may20 june1 (june1 + day 7)).
  - reflexivity.
  - reflexivity.
Defined.

(** End to end (section 8 of the specification): on a [withDeadline]
    listing whose window opens on 2024-06-01, a proposal with the deadline
    2024-05-20 is refused, and one with 2024-06-05 is handed to the
    repository. *)
Example create_on_withDeadline_listing :
  createProposalFromForm sampleRuntime (sampleDatabase pendingArtist) "client-1"
    (sampleForm "2024-05-20" "A portrait of my cat" [])
  = Err (HttpError "Deadline cannot be earlier than 2024-06-01" 400)
  /\ createProposalFromForm sampleRuntime (sampleDatabase pendingArtist) "client-1"
       (sampleForm "2024-06-05" "A portrait of my cat" [])
     = Ok (repoCreateProposal (sampleInput [])).
Proof. split; reflexivity. Qed.

(** ** The state machine *)

Lemma same_actor (a : string) : negb (String.eqb a a) = false.
Proof. rewrite String.eqb_refl. reflexivity. Qed.

Lemma other_actor (a b : string) : a <> b -> negb (String.eqb a b) = true.
Proof. intros Hne. apply String.eqb_neq in Hne. rewrite Hne. reflexivity. Qed.





(** C5 (as amended).  Editing a proposal, the artist's response and the
    client's response compare the actor with the proposal's client or
    artist before anything else and fail with an authorization error
    otherwise; [finalizeProposal] takes no actor: it looks at the status
    only and never fails with an authorization error. *)
Theorem transitions_check_identity
        (rt : Runtime) (db : Database) (proposalId actor : string)
        (proposal : IProposal) :
  getProposalById db proposalId = Some proposal ->
  (actor <> clientId proposal ->
     (forall form,
         updateProposalFromForm rt db proposalId actor form
         = Err (HttpError "Not authorized to edit this proposal" 403))
     /\ classify (HttpError "Not authorized to edit this proposal" 403)
        = AuthorizationError
     /\ (forall decision,
            clientRespond db actor proposalId decision
            = Err (Error "Not authorized to respond to this proposal")))
  /\ (actor <> artistId proposal ->
        (forall decision,
            artistRespond rt db actor proposalId decision
            = Err (Error "Not authorized to respond to this proposal"))
        /\ classify (Error "Not authorized to respond to this proposal")
           = AuthorizationError)
  /\ (status proposal = accepted ->
        finalizeProposal db proposalId = Ok (finalizeAcceptance proposalId))
  /\ (status proposal <> accepted ->
        finalizeProposal db proposalId
        = Err (Error "Proposal must be in accepted status to finalize")
        /\ classify (Error "Proposal must be in accepted status to finalize")
           = StateError).
Proof.
  intros Hget. split; [|split; [|split]].
  - intros Hne. split; [|split; [reflexivity|]].
    + intros form. unfold updateProposalFromForm. rewrite Hget. simpl.
      rewrite other_actor by congruence. reflexivity.
    + intros decision. unfold clientRespond. rewrite Hget. simpl.
      rewrite other_actor by congruence. reflexivity.
  - intros Hne. split; [|reflexivity].
    intros decision. unfold artistRespond. rewrite Hget. simpl.
    rewrite other_actor by congruence. reflexivity.
  - intros Hacc. unfold finalizeProposal. rewrite Hget. simpl.
    rewrite Hacc. reflexivity.
  - intros Hnot. unfold finalizeProposal. rewrite Hget. simpl.
    split; [|reflexivity].
    destruct (status proposal); try reflexivity. contradiction.
Qed.

Lemma transitions_check_identity_witness :
  clientRespond (sampleDatabase pendingClient) "someone-else" "proposal-1" cancelIt
  = Err (Error "Not authorized to respond to this proposal").
Proof.
  apply (transitions_check_identity sampleRuntime (sampleDatabase pendingClient)
           "proposal-1" "someone-else" (sampleProposal pendingClient)).
  - reflexivity.
  - discriminate.
Defined.

(** C5, as stated, fails for the finalisation: [finalizeProposal] is given
    the proposal only, no identity is compared with its client or its
    artist, and an accepted proposal goes to the repository's
    [finalizeAcceptance] whoever asked. *)
Lemma finalizeProposal_checks_no_identity :
  getProposalById (sampleDatabase accepted) "proposal-1"
  = Some (sampleProposal accepted)
  /\ finalizeProposal (sampleDatabase accepted) "proposal-1"
     = Ok (finalizeAcceptance "proposal-1")
  /\ ~ (exists e, finalizeProposal (sampleDatabase accepted) "proposal-1" = Err e
                  /\ classify e = AuthorizationError).
Proof.
  repeat split. intros [e [He _]]. vm_compute in He. discriminate He.
Qed.

(** C6.  For the client who owns the proposal, [clientRespond] with
    [cancel: true] goes to the repository's [cancelProposal] whatever the
    status and whatever else the decision holds: the cancel branch comes
    before the requirement that the status be [pendingClient].  From each
    of the statuses [pendingArtist], [pendingClient], [rejectedClient] and
    [accepted] the cancellation is carried out and leaves the proposal in
    [cancelled]. *)
Theorem clientRespond_cancel
        (db : Database) (proposalId : string) (proposal : IProposal)
        (decision : ClientDecision) :
  getProposalById db proposalId = Some proposal ->
  cancel decision = Some true ->
  clientRespond db (clientId proposal) proposalId decision
  = Ok (cancelProposal proposalId (clientId proposal))
  /\ (In (status proposal) nonTerminal ->
      exists db' proposal',
        cancelProposal_repository db proposalId (clientId proposal)
        = Some (db', proposal')
        /\ getProposalById db' proposalId = Some proposal'
        /\ status proposal' = cancelled
        /\ clientId proposal' = clientId proposal
        /\ artistId proposal' = artistId proposal).
Proof.
  intros Hget Hcancel. split.
  - unfold clientRespond. rewrite Hget. simpl.
    rewrite same_actor. simpl. rewrite Hcancel. reflexivity.
  - intros Hstatus. unfold cancelProposal_repository.
    unfold getProposalById in Hget. rewrite Hget.
    assert (Hterm : isTerminal (status proposal) = false).
    { simpl in Hstatus.
      destruct Hstatus as [<-|[<-|[<-|[<-|[]]]]]; reflexivity. }
    rewrite Hterm. eexists. eexists. split; [reflexivity|].
    unfold getProposalById. simpl. rewrite lookup_insert_eq.
    repeat split.
Qed.

Lemma clientRespond_cancel_witness :
  clientRespond (sampleDatabase accepted) "client-1" "proposal-1" cancelIt
  = Ok (cancelProposal "proposal-1" "client-1").
Proof.
  apply (clientRespond_cancel (sampleDatabase accepted) "proposal-1"
           (sampleProposal accepted) cancelIt).
  - reflexivity.
  - reflexivity.
Defined.

(** ** The availability window *)

(** C7.  For a listing that exists and an estimator that answers,
    [getDynamicEstimate] returns the three fields: [baseDate] is the latest
    deadline among the artist's active contracts, or the current date when
    there is none; [earliestDate] and [latestDate] are those of the
    estimator's window for that base date, and, the estimator honouring its
    contract, [earliestDate] is before [latestDate]. *)
Theorem getDynamicEstimate_fields
        (rt : Runtime) (db : Database) (id : string)
        (listing : ICommissionListing) (w : Estimate) :
  estimatorOrdered rt ->
  findCommissionListingById db id = Some listing ->
  computeDynamicEstimate rt listing
    (match getLatestActiveContractDeadline db (l_artistId listing) with
     | Some latestDeadline => latestDeadline
     | None => now rt
     end) = Ok w ->
  exists r,
    getDynamicEstimate rt db id = Ok r
    /\ de_baseDate r
       = match getLatestActiveContractDeadline db (l_artistId listing) with
         | Some latestDeadline => latestDeadline
         | None => now rt
         end
    /\ de_earliestDate r = earliestDate w
    /\ de_latestDate r = latestDate w
    /\ de_earliestDate r < de_latestDate r.
Proof.
  intros Hordered Hfind Hwindow. unfold getDynamicEstimate.
  rewrite Hfind. simpl. rewrite Hwindow. simpl.
  eexists. split; [reflexivity|]. simpl. repeat split.
  eapply Hordered. exact Hwindow.
Qed.

Lemma sampleRuntime_ordered : estimatorOrdered sampleRuntime.
Proof.
  intros listing baseDate w Hw. simpl in Hw. inversion Hw; subst. simpl.
  unfold day, msPerDay. lia.
Qed.

Lemma getDynamicEstimate_fields_witness :
  exists r,
    getDynamicEstimate sampleRuntime (sampleDatabase pendingArtist) "listing-1" = Ok r
    /\ de_baseDate r = june1
    /\ de_earliestDate r = june1
    /\ de_latestDate r = june1 + day 7
    /\ de_earliestDate r < de_latestDate r.
Proof.
  apply (getDynamicEstimate_fields sampleRuntime (sampleDatabase pendingArtist)
           "listing-1" (sampleListing "withDeadline")
           {| earliestDate := june1; latestDate := june1 + day 7 |}).
  - exact sampleRuntime_ordered.
  - reflexivity.
  - reflexivity.
Defined.

(** ** Validation of a new proposal *)

Lemma bind_ok {A B : Type} (m : result A) (k : A -> result B) (b : B) :
  bind m k = Ok b -> exists a, m = Ok a /\ k a = Ok b.
Proof. destruct m as [a|e]; simpl; intros H; [eauto | discriminate]. Qed.

Lemma throw_if_ok (cond : bool) (e : error) :
  throw_if cond e = Ok tt -> cond = false.
Proof. destruct cond; simpl; [discriminate | reflexivity]. Qed.

Ltac step_ok H x Hx :=
  apply bind_ok in H; destruct H as [x [Hx H]].

(** C10.  [validateProposalInput] rejects every input with more than five
    reference images, with "Maximum 5 reference images allowed" when the
    dates and the description pass; an input it accepts has its earliest
    date strictly before its latest date, a description that is not blank
    and at most five reference images; and [createProposalFromForm] reaches
    the repository's [createProposal] only with an input that this
    validation accepted. *)
Theorem createProposal_validates_input
        (rt : Runtime) (db : Database) (client : string) (form : FormData)
        (input : ProposalInput) :
  (forall imgs,
      pi_referenceImages input = Some imgs -> (5 < length imgs)%nat ->
      is_ok (validateProposalInput input) = false
      /\ (pi_earliestDate input < pi_latestDate input ->
          blank (pi_generalDescription input) = false ->
          validateProposalInput input
          = Err (Error "Maximum 5 reference images allowed")))
  /\ (validateProposalInput input = Ok tt ->
        pi_earliestDate input < pi_latestDate input
        /\ blank (pi_generalDescription input) = false
        /\ (forall imgs, pi_referenceImages input = Some imgs ->
                         (length imgs <= 5)%nat))
  /\ (forall call,
        createProposalFromForm rt db client form = Ok call ->
        exists validated,
          call = repoCreateProposal validated
          /\ validateProposalInput validated = Ok tt).
Proof.
  split; [|split].
  - intros imgs Himgs Hmany.
    assert (Hgt : (Z.of_nat (length imgs) >? 5) = true).
    { apply Z.gtb_lt. lia. }
    unfold validateProposalInput. rewrite isEmpty_trim, Himgs, Hgt. split.
    + destruct (pi_earliestDate input >=? pi_latestDate input); [reflexivity|].
      destruct (blank (pi_generalDescription input)); reflexivity.
    + intros Hdates Hdesc. rewrite Hdesc.
      destruct (Z.geb_spec (pi_earliestDate input) (pi_latestDate input)); [lia|].
      reflexivity.
  - unfold validateProposalInput. rewrite isEmpty_trim. intros H.
    step_ok H u1 Hdates. step_ok H u2 Hdesc. step_ok H u3 Himgs.
    destruct u1, u2, u3.
    apply throw_if_ok in Hdates, Hdesc, Himgs.
    split; [|split].
    + destruct (Z.geb_spec (pi_earliestDate input) (pi_latestDate input));
        [discriminate | lia].
    + exact Hdesc.
    + intros imgs Hsome. rewrite Hsome in Himgs.
      destruct (Z.gtb_spec (Z.of_nat (length imgs)) 5); [discriminate | lia].
  - intros call H. unfold createProposalFromForm in H.
    step_ok H json Hjson. step_ok H lid Hid.
    step_ok H found Hfound. step_ok H u1 Hactive.
    step_ok H window Hwindow. step_ok H deadlineText Hdeadline.
    step_ok H u2 Hpolicy. step_ok H description Hdescription.
    step_ok H urls Hupload. step_ok H u3 Hvalid.
    destruct u3. inversion H; subst. eexists. split; [reflexivity | exact Hvalid].
Qed.

(** Six reference images: the proposal is refused and nothing reaches the
    repository. *)
Lemma createProposal_validates_input_witness :
  validateProposalInput (sampleInput sixImages)
  = Err (Error "Maximum 5 reference images allowed")
  /\ createProposalFromForm sampleRuntime (sampleDatabase pendingArtist) "client-1"
       (sampleForm "2024-06-05" "A portrait of my cat" sixImages)
     = Err (Error "Maximum 5 reference images allowed").
Proof.
  split; [|reflexivity].
  destruct (createProposal_validates_input sampleRuntime
              (sampleDatabase pendingArtist) "client-1"
              (sampleForm "2024-06-05" "A portrait of my cat" sixImages)
              (sampleInput sixImages)) as [Hmany _].
  apply (Hmany sixImages).
  - reflexivity.
  - simpl. lia.
  - reflexivity.
  - reflexivity.
Defined.

(** A description that is the one character U+00A0 (no-break space) is
    blank: the form is refused for its description, six images or not. *)
Example createProposal_no_break_space :
  blank (utf8 [194; 160]%nat) = true
  /\ createProposalFromForm sampleRuntime (sampleDatabase pendingArtist) "client-1"
       (sampleForm "2024-06-05" (utf8 [194; 160]%nat) sixImages)
     = Err (Error "Description is required").
Proof. split; reflexivity. Qed.

End ProposalFacts.

(** * Further properties of the listing service *)

Module ListingExtra.
Import Listing ListingSpec ListingFacts.

(** ** Identifiers *)

Lemma mapi_from_lookup {A B : Type} (f : A -> Z -> B) (l : list A) (i : Z) (k : nat) :
  mapi_from f i l !! k = (fun x => f x (i + Z.of_nat k)) <$> l !! k.
Proof.
  revert i k. induction l as [|x l IH]; intros i k; simpl.
  - destruct k; reflexivity.
  - destruct k as [|k]; simpl.
    + rewrite Z.add_0_r. reflexivity.
    + rewrite IH. destruct (l !! k); simpl; [|reflexivity].
      do 2 f_equal. lia.
Qed.

Lemma mapi_from_length {A B : Type} (f : A -> Z -> B) (l : list A) (i : Z) :
  length (mapi_from f i l) = length l.
Proof.
  revert i. induction l as [|x l IH]; intros i; simpl; [reflexivity|].
  rewrite IH. reflexivity.
Qed.

Lemma mapi_from_forallb {A B : Type} (f : A -> Z -> B) (p : B -> bool)
      (l : list A) (i : Z) :
  (forall x j, p (f x j) = true) -> forallb p (mapi_from f i l) = true.
Proof.
  intros Hp. revert i. induction l as [|x l IH]; intros i; simpl; [reflexivity|].
  rewrite Hp, IH. reflexivity.
Qed.

Lemma mapi_from_map {A B C : Type} (f : A -> Z -> B) (g : B -> C) (h : A -> C)
      (l : list A) (i : Z) :
  (forall x j, g (f x j) = h x) -> map g (mapi_from f i l) = map h l.
Proof.
  intros Hg. revert i. induction l as [|x l IH]; intros i; simpl; [reflexivity|].
  rewrite Hg, IH. reflexivity.
Qed.

Lemma mapi_from_ext {A B : Type} (f g : A -> Z -> B) (l : list A) (i : Z) :
  (forall x j, f x j = g x j) -> mapi_from f i l = mapi_from g i l.
Proof.
  intros Hfg. revert i. induction l as [|x l IH]; intros i; simpl; [reflexivity|].
  rewrite Hfg, IH. reflexivity.
Qed.

Lemma mapi_from_mapi_from {A B C : Type} (f : A -> Z -> B) (g : B -> Z -> C)
      (l : list A) (i : Z) :
  mapi_from g i (mapi_from f i l) = mapi_from (fun x j => g (f x j) j) i l.
Proof.
  revert i. induction l as [|x l IH]; intros i; simpl; [reflexivity|].
  rewrite IH. reflexivity.
Qed.

Lemma Selection_written : idWritten Selection.
Proof. intros x i. reflexivity. Qed.

Lemma OptionGroup_written : idWritten OptionGroup.
Proof. intros x i. reflexivity. Qed.

Lemma Addon_written : idWritten Addon.
Proof. intros x i. reflexivity. Qed.

Lemma Milestone_written : idWritten Milestone.
Proof. intros x i. reflexivity. Qed.

Lemma SubjectOption_written : idWritten SubjectOption.
Proof. intros x i. reflexivity. Qed.

Lemma generateIds_hasId {T : Type} `{HasId T} (items : list T) (startId : ID) :
  idWritten T -> forallb hasId (generateIds items startId) = true.
Proof.
  intros Hw. unfold generateIds, mapi. apply mapi_from_forallb.
  intros x j. unfold hasId. rewrite Hw. reflexivity.
Qed.

(** X1.  [generateIds] returns as many items as it is given; every one of
    them carries an id; the item at position [k] is the item given at that
    position with the id it had, or with [startId + k] when it had none. *)
Theorem generateIds_assigns {T : Type} `{HasId T} (items : list T) (startId : ID) :
  idWritten T ->
  length (generateIds items startId) = length items
  /\ forallb hasId (generateIds items startId) = true
  /\ (forall (k : nat) (x : T),
        items !! k = Some x ->
        generateIds items startId !! k = Some (setId (idAt startId k x) x)
        /\ getId (setId (idAt startId k x) x) = Some (idAt startId k x)).
Proof.
  intros Hw. split; [|split].
  - apply mapi_from_length.
  - apply generateIds_hasId, Hw.
  - intros k x Hx. split; [|apply Hw].
    unfold generateIds, mapi. rewrite mapi_from_lookup, Hx. reflexivity.
Qed.

Lemma generateIds_assigns_witness :
  generateIds [ {| sel_id := None; sel_label := "Bust"; sel_price := 200 |};
                {| sel_id := Some 7; sel_label := "Full"; sel_price := 500 |};
                {| sel_id := None; sel_label := "Scene"; sel_price := 900 |} ] 1 !! 2%nat
  = Some {| sel_id := Some 3; sel_label := "Scene"; sel_price := 900 |}.
Proof.
  destruct (generateIds_assigns
              [ {| sel_id := None; sel_label := "Bust"; sel_price := 200 |};
                {| sel_id := Some 7; sel_label := "Full"; sel_price := 500 |};
                {| sel_id := None; sel_label := "Scene"; sel_price := 900 |} ] 1
              Selection_written) as [_ [_ Hat]].
  apply (Hat 2%nat {| sel_id := None; sel_label := "Scene"; sel_price := 900 |}).
  reflexivity.
Defined.

(** X2.  [generateIds] is idempotent, whatever the two start ids: the ids
    given by a first pass are existing ids for a second one. *)
Theorem generateIds_idempotent {T : Type} `{HasId T}
        (items : list T) (startId startId' : ID) :
  idWritten T -> spreadKeeps T ->
  generateIds (generateIds items startId) startId' = generateIds items startId.
Proof.
  intros Hw Hk. apply generateIds_fixed; [exact Hk|].
  apply generateIds_hasId, Hw.
Qed.

Lemma generateIds_idempotent_witness :
  generateIds (generateIds (percents [30; 30; 40]) 1) 10
  = generateIds (percents [30; 30; 40]) 1.
Proof.
  apply (generateIds_idempotent (percents [30; 30; 40]) 1 10
           Milestone_written Milestone_spread).
Defined.

(** ** Normalisation *)

Lemma convertQuestion_shape (q : Question) (idx : Z) :
  exists id text, convertQuestion q idx = idText id text.
Proof.
  destruct q as [s|[qi qt ql qx qs]| |s]; simpl; try (unfold canonicalQuestion; eauto).
  destruct qt; [destruct ql|..]; unfold canonicalQuestion; eauto.
Qed.

(** The conversion gives a canonical question exactly when what it reads of
    the question is of the type it is cast to. *)
Lemma convertQuestion_isCanonical (q : Question) (idx : Z) :
  isCanonicalQuestion (convertQuestion q idx) = typedQuestion q.
Proof.
  destruct q as [s|[qi qt ql qx qs]| |s]; simpl; try reflexivity.
  destruct qt, ql, qi; reflexivity.
Qed.

Lemma mapi_from_forallb_eq {A B : Type} (f : A -> Z -> B) (p : B -> bool)
      (q : A -> bool) (l : list A) (i : Z) :
  (forall x j, p (f x j) = q x) -> forallb p (mapi_from f i l) = forallb q l.
Proof.
  intros Hp. revert i. induction l as [|x l IH]; intros i; simpl; [reflexivity|].
  rewrite Hp, IH. reflexivity.
Qed.

Lemma processGroups_canonical (groups : list OptionGroup) :
  forallb canonicalGroup (processGroups groups) = true.
Proof.
  unfold processGroups. apply forallb_forall. intros g Hg.
  apply in_map_iff in Hg as [g0 [<- Hg0]].
  unfold canonicalGroup. simpl.
  rewrite generateIds_hasId by exact Selection_written.
  rewrite andb_true_r.
  pose proof (generateIds_hasId groups 1 OptionGroup_written) as Hall.
  rewrite forallb_forall in Hall. exact (Hall g0 Hg0).
Qed.

Lemma processed_parts_canonical (groups : option (list OptionGroup))
      (addons : option (list Addon)) (questions : option (list Question)) :
  canonicalParts (option_map processGroups groups)
                 (option_map (fun a => generateIds a 1) addons)
                 (option_map (mapi convertQuestion) questions)
  = forallb typedQuestion (elems questions).
Proof.
  unfold canonicalParts.
  replace (forallb canonicalGroup (elems (option_map processGroups groups))) with true
    by (destruct groups; simpl; [rewrite processGroups_canonical|]; reflexivity).
  replace (forallb hasId (elems (option_map (fun a => generateIds a 1) addons))) with true
    by (destruct addons; simpl;
        [rewrite (generateIds_hasId _ _ Addon_written)|]; reflexivity).
  destruct questions; simpl; [|reflexivity].
  apply mapi_from_forallb_eq. intros. apply convertQuestion_isCanonical.
Qed.

Lemma forallb_mapped {A B : Type} (p : B -> bool) (f : A -> B) (l : list A) :
  forallb p (map f l) = forallb (fun x => p (f x)) l.
Proof. induction l as [|x l IH]; simpl; [reflexivity | rewrite IH; reflexivity]. Qed.

Lemma processed_subjects_canonical (subjects : list SubjectOption) :
  forallb (fun s => hasId s
                    && canonicalParts (so_optionGroups s) (so_addons s) (so_questions s))
          (map processSubject (generateIds subjects 1))
  = forallb (fun s => forallb typedQuestion (elems (so_questions s))) subjects.
Proof.
  rewrite forallb_mapped. unfold generateIds, mapi. apply mapi_from_forallb_eq.
  intros s j. simpl. apply processed_parts_canonical.
Qed.

Ltac canonical_after_processing :=
  unfold isCanonical, typedQuestions, processPayloadWithIds; simpl;
  match goal with
  | |- context [forallb hasId (elems (option_map ?f ?ms))] =>
      replace (forallb hasId (elems (option_map f ms))) with true
        by (destruct ms; simpl;
            [rewrite (generateIds_hasId _ _ Milestone_written)|]; reflexivity)
  end;
  simpl; f_equal;
  [ match goal with
    | |- context [option_map processGeneralOptions ?go] =>
        destruct go as [[gg ga gq]|]; simpl;
        [apply processed_parts_canonical | reflexivity]
    end
  | match goal with
    | |- context [option_map _ ?so] =>
        destruct so; simpl; [apply processed_subjects_canonical | reflexivity]
    end ].

(** X3.  The result of [processPayloadWithIds] is canonical exactly when
    what the conversion reads of the questions of the payload is of the
    type it is cast to (the title of a question object is a string;
    without a title, its label is a string and its id, if it has one, is an
    id): every milestone, option group, selection, addon and subject then
    carries an id, and every question is an object with an id and a text
    and neither [title] nor [label].  A question object with a label and
    [null] under its id key keeps the [null], and the result is not
    canonical. *)
Theorem processPayloadWithIds_canonical :
  (forall p : Payload, isCanonical (processPayloadWithIds p) = typedQuestions p)
  /\ (typedQuestions labelWithNullId = false
      /\ option_map go_questions (generalOptions (processPayloadWithIds labelWithNullId))
         = Some (Some [ idText (Other "null") (Holds "Which pose?") ]))
  /\ (typedQuestions arrayQuestion = true
      /\ option_map go_questions (generalOptions (processPayloadWithIds arrayQuestion))
         = Some (Some [ canonicalQuestion 1 "a,b" ])).
Proof.
  split; [|split; split; reflexivity].
  intros p. destruct p as [ti ty fl ar th sa de ba ca sl re ms go so].
  canonical_after_processing.
Qed.

Lemma fold_left_mapped {A B C : Type} (F : C -> B -> C) (h : A -> B)
      (l : list A) (r : C) :
  fold_left F (map h l) r = fold_left (fun r x => F r (h x)) l r.
Proof.
  revert r. induction l as [|x l IH]; intros r; simpl; [reflexivity|]. apply IH.
Qed.

Lemma fold_left_mapi_from {A C : Type} (F G : C -> A -> C) (f : A -> Z -> A)
      (l : list A) (i : Z) (r : C) :
  (forall r x j, F r (f x j) = G r x) ->
  fold_left F (mapi_from f i l) r = fold_left G l r.
Proof.
  intros HF. revert i r. induction l as [|x l IH]; intros i r; simpl; [reflexivity|].
  rewrite HF. apply IH.
Qed.

Lemma generateIds_prices {T : Type} `{HasId T} (price : T -> Z)
      (items : list T) (startId : ID) :
  (forall x i, price (setId i x) = price x) ->
  map price (generateIds items startId) = map price items.
Proof.
  intros Hp. unfold generateIds, mapi. apply mapi_from_map.
  intros x j. apply Hp.
Qed.

Lemma addGroups_processed (r : PriceRange) (groups : option (list OptionGroup)) :
  addGroups r (option_map processGroups groups) = addGroups r groups.
Proof.
  destruct groups as [gs|]; simpl; [|reflexivity].
  unfold addGroups, processGroups. simpl.
  rewrite fold_left_mapped. simpl.
  unfold generateIds at 2. unfold mapi. apply fold_left_mapi_from.
  intros r0 g j. simpl.
  rewrite (generateIds_prices sel_price); [reflexivity|]. reflexivity.
Qed.

Lemma addAddons_processed (r : PriceRange) (addons : option (list Addon)) :
  addAddons r (option_map (fun a => generateIds a 1) addons) = addAddons r addons.
Proof.
  destruct addons as [a|]; simpl; [|reflexivity].
  unfold addAddons. simpl.
  rewrite (generateIds_prices add_price); reflexivity.
Qed.

(** X4.  Normalising a payload does not change its price range. *)
Theorem computePriceRange_processed (p : Payload) :
  computePriceRange (processPayloadWithIds p) = computePriceRange p.
Proof.
  destruct p as [ti ty fl ar th sa de ba ca sl re ms go so].
  unfold computePriceRange, processPayloadWithIds. simpl.
  assert (Hgeneral :
            addAddons (addGroups {| min := match ba with Some b => b | None => 0 end;
                                    max := match ba with Some b => b | None => 0 end |}
                         match option_map processGeneralOptions go with
                         | Some g => go_optionGroups g | None => None end)
                      match option_map processGeneralOptions go with
                      | Some g => go_addons g | None => None end
            = addAddons (addGroups {| min := match ba with Some b => b | None => 0 end;
                                      max := match ba with Some b => b | None => 0 end |}
                           match go with
                           | Some g => go_optionGroups g | None => None end)
                        match go with
                        | Some g => go_addons g | None => None end).
  { destruct go as [[gg ga gq]|]; simpl; [|reflexivity].
    rewrite addAddons_processed, addGroups_processed. reflexivity. }
  rewrite Hgeneral.
  destruct so as [subjects|]; simpl; [|reflexivity].
  rewrite fold_left_mapped.
  unfold generateIds, mapi. apply fold_left_mapi_from.
  intros r s j. simpl.
  rewrite addAddons_processed, addGroups_processed. reflexivity.
Qed.

(** X5.  Normalising a payload does not change the verdict of
    [validateListingPayload]: the same payloads are accepted, and the
    others are rejected with the same error. *)
Theorem validateListingPayload_processed (p : Payload) :
  validateListingPayload (processPayloadWithIds p) = validateListingPayload p.
Proof.
  destruct p as [ti ty fl ar th sa de ba ca sl re ms go so].
  unfold validateListingPayload.
  assert (Hflow : checkMilestoneFlow
                    (processPayloadWithIds
                       (mkPayload ti ty fl ar th sa de ba ca sl re ms go so))
                  = checkMilestoneFlow
                      (mkPayload ti ty fl ar th sa de ba ca sl re ms go so)).
  { unfold checkMilestoneFlow, noMilestones, flow_is. simpl.
    destruct ms as [[|m l]|]; reflexivity. }
  assert (Hsum : checkMilestoneSum
                   (processPayloadWithIds
                      (mkPayload ti ty fl ar th sa de ba ca sl re ms go so))
                 = checkMilestoneSum
                     (mkPayload ti ty fl ar th sa de ba ca sl re ms go so)).
  { unfold checkMilestoneSum. simpl.
    destruct ms as [[|m l]|]; try reflexivity.
    unfold option_map, generateIds, mapi. cbn [mapi_from].
    rewrite !percentSum_sum. cbn [map sumZ fold_right].
    rewrite (mapi_from_map _ ms_percent ms_percent); [reflexivity|].
    intros x j. reflexivity. }
  rewrite Hflow, Hsum. reflexivity.
Qed.

Lemma convertQuestion_twice (q : Question) (idx : Z) :
  convertQuestion (convertQuestion q idx) idx = canonicalQuestion (idx + 1) object_Object.
Proof.
  destruct (convertQuestion_shape q idx) as [i [t ->]]. reflexivity.
Qed.

Lemma questions_twice (questions : list Question) :
  mapi convertQuestion (mapi convertQuestion questions)
  = mapi (fun _ idx => canonicalQuestion (idx + 1) object_Object) questions.
Proof.
  unfold mapi. rewrite mapi_from_mapi_from. apply mapi_from_ext.
  intros q j. apply convertQuestion_twice.
Qed.

(** X6.  A second pass of [processPayloadWithIds] replaces the text of
    every general question, whatever it was, by "[object Object]" and
    numbers the questions by position from 1: the objects the first pass
    produced have neither [title] nor [label]. *)
Theorem second_pass_overwrites_questions
        (p : Payload) (g : GeneralOptions) (questions : list Question) :
  generalOptions p = Some g ->
  go_questions g = Some questions ->
  option_map go_questions
    (generalOptions (processPayloadWithIds (processPayloadWithIds p)))
  = Some (Some (mapi (fun _ idx => canonicalQuestion (idx + 1) "[object Object]")
                     questions)).
Proof.
  destruct p as [ti ty fl ar th sa de ba ca sl re ms go so].
  destruct g as [gg ga gq]. simpl. intros -> ->. simpl.
  rewrite questions_twice. reflexivity.
Qed.

Lemma second_pass_overwrites_questions_witness :
  option_map go_questions
    (generalOptions
       (processPayloadWithIds
          (processPayloadWithIds
             (onlyPrices 1000
                (Some {| go_optionGroups := None; go_addons := None;
                         go_questions := Some [ QString "Which pose?";
                                                QString "Which colours?" ] |})
                None))))
  = Some (Some [ canonicalQuestion 1 "[object Object]";
                 canonicalQuestion 2 "[object Object]" ]).
Proof.
  apply (second_pass_overwrites_questions
           (onlyPrices 1000
              (Some {| go_optionGroups := None; go_addons := None;
                       go_questions := Some [ QString "Which pose?";
                                              QString "Which colours?" ] |})
              None)
           {| go_optionGroups := None; go_addons := None;
              go_questions := Some [ QString "Which pose?"; QString "Which colours?" ] |}
           [ QString "Which pose?"; QString "Which colours?" ]).
  - reflexivity.
  - reflexivity.
Defined.

(** X7.  [convertQuestionsToIdFormat] keeps the texts in their order and
    numbers them from 1: the entry at position [k] is the text given at
    [k] under the id [k + 1]; nothing comes out of an absent list.  On
    string questions it gives what the conversion inside
    [processPayloadWithIds] gives. *)
Theorem convertQuestionsToIdFormat_numbers (texts : list string) :
  convertQuestionsToIdFormat None = []
  /\ length (convertQuestionsToIdFormat (Some texts)) = length texts
  /\ (forall k : nat,
        convertQuestionsToIdFormat (Some texts) !! k
        = (fun text => {| iq_id := Z.of_nat k + 1; iq_text := text |}) <$> texts !! k)
  /\ map asQuestion (convertQuestionsToIdFormat (Some texts))
     = mapi convertQuestion (map QString texts).
Proof.
  assert (Hdef : convertQuestionsToIdFormat (Some texts)
                 = mapi (fun text index => {| iq_id := index + 1; iq_text := text |})
                        texts).
  { destruct texts; reflexivity. }
  split; [reflexivity|]. rewrite Hdef. unfold mapi. split; [|split].
  - apply mapi_from_length.
  - intros k. rewrite mapi_from_lookup. reflexivity.
  - clear Hdef. generalize 0 as i.
    induction texts as [|t texts IH]; intros i; simpl.
    + reflexivity.
    + rewrite <- IH. reflexivity.
Qed.

(** ** Sanitising *)

Lemma sanitize_step_lookup {V : Type} (raw : gmap string V) (fields : list string)
      (acc : gmap string V) (k : string) :
  fold_left (fun sanitized field =>
               match raw !! field with
               | Some v => <[field := v]> sanitized
               | None => sanitized
               end) fields acc !! k
  = match (if mem_string k fields then raw !! k else None) with
    | Some v => Some v
    | None => acc !! k
    end.
Proof.
  revert acc. induction fields as [|f fields IH]; intros acc; simpl.
  - reflexivity.
  - rewrite IH. unfold mem_string in *. simpl.
    destruct (String.eqb_spec k f) as [->|Hne]; simpl.
    + destruct (existsb (String.eqb f) fields).
      * destruct (raw !! f) as [v|]; [reflexivity|reflexivity].
      * destruct (raw !! f) as [v|]; [apply lookup_insert_eq | reflexivity].
    + destruct (existsb (String.eqb k) fields); simpl.
      * destruct (raw !! k) as [v|]; [reflexivity|].
        destruct (raw !! f) as [w|]; [|reflexivity].
        apply lookup_insert_ne. congruence.
      * destruct (raw !! f) as [w|]; [|reflexivity].
        apply lookup_insert_ne. congruence.
Qed.

Lemma sanitizePayload_lookup {V : Type} (raw : gmap string V) (k : string) :
  sanitizePayload raw !! k = if mem_string k allowedFields then raw !! k else None.
Proof.
  unfold sanitizePayload. rewrite sanitize_step_lookup. rewrite lookup_empty.
  destruct (mem_string k allowedFields); [destruct (raw !! k)|]; reflexivity.
Qed.

(** X8.  The object returned by [sanitizePayload] has, under each of the
    eighteen allowed keys, what the raw payload has under that key, and
    nothing under any other key: a raw payload cannot set [artistId],
    [price], [samples], [thumbnailIdx], [tos] or the flags of a listing. *)
Theorem sanitizePayload_keeps_allowed_only {V : Type} (raw : gmap string V) :
  (forall k, In k allowedFields -> sanitizePayload raw !! k = raw !! k)
  /\ (forall k, ~ In k allowedFields -> sanitizePayload raw !! k = None)
  /\ (forall k, In k [ "artistId"; "price"; "samples"; "thumbnailIdx"; "tos";
                       "isActive"; "isDeleted"; "slotsUsed" ] ->
                sanitizePayload raw !! k = None).
Proof.
  assert (Hmem : forall k l, mem_string k l = true <-> In k l).
  { intros k l. unfold mem_string. rewrite existsb_exists. split.
    - intros [x [Hx Heq]]. apply String.eqb_eq in Heq. subst. exact Hx.
    - intros Hk. exists k. split; [exact Hk | apply String.eqb_refl]. }
  split; [|split].
  - intros k Hk. rewrite sanitizePayload_lookup.
    apply Hmem in Hk. rewrite Hk. reflexivity.
  - intros k Hk. rewrite sanitizePayload_lookup.
    destruct (mem_string k allowedFields) eqn:Hm; [|reflexivity].
    apply Hmem in Hm. contradiction.
  - intros k Hk. rewrite sanitizePayload_lookup.
    simpl in Hk. repeat (destruct Hk as [<-|Hk]; [reflexivity|]). destruct Hk.
Qed.

(** X9.  [sanitizePayload] only removes keys, and sanitising twice is
    sanitising once. *)
Theorem sanitizePayload_idempotent {V : Type} (raw : gmap string V) :
  sanitizePayload raw ⊆ raw
  /\ sanitizePayload (sanitizePayload raw) = sanitizePayload raw.
Proof.
  split.
  - apply map_subseteq_spec. intros k v. rewrite sanitizePayload_lookup.
    destruct (mem_string k allowedFields); [tauto | discriminate].
  - apply map_eq. intros k. rewrite !sanitizePayload_lookup.
    destruct (mem_string k allowedFields); reflexivity.
Qed.

(** ** What the validation accepts *)

Lemma unit_bind_ok (m k : result unit) :
  (check m in k) = Ok tt <-> m = Ok tt /\ k = Ok tt.
Proof.
  destruct m as [[]|e]; simpl; split.
  - intros Hk. split; [reflexivity | exact Hk].
  - intros [_ Hk]. exact Hk.
  - discriminate.
  - intros [Hm _]. discriminate.
Qed.

Lemma throw_if_ok_iff (cond : bool) (e : error) :
  throw_if cond e = Ok tt <-> cond = false.
Proof. destruct cond; simpl; split; congruence. Qed.

Lemma checkRequired_ok (p : Payload) :
  checkRequired (requiredFields p) = Ok tt <-> requiredPresent p.
Proof.
  destruct p as [ti ty fl ar th sa de ba ca sl re ms go so].
  unfold requiredFields, requiredPresent. simpl.
  destruct ti; simpl; [|split; [discriminate | tauto]].
  destruct ty; simpl; [|split; [discriminate | tauto]].
  destruct fl; simpl; [|split; [discriminate | tauto]].
  destruct ar; simpl; [|split; [discriminate | tauto]].
  destruct th; simpl; [|split; [discriminate | tauto]].
  destruct sa; simpl; [|split; [discriminate | tauto]].
  destruct de; simpl; [|split; [discriminate | tauto]].
  destruct ba; simpl; [|split; [discriminate | tauto]].
  destruct ca; simpl; [|split; [discriminate | tauto]].
  split; [intros _; repeat split; discriminate | reflexivity].
Qed.

Lemma flow_is_spec (p : Payload) (f : string) :
  flow_is p f = true <-> flow p = Some f.
Proof.
  unfold flow_is. destruct (flow p) as [x|]; [|split; discriminate].
  rewrite String.eqb_eq. split; congruence.
Qed.

Lemma checkMilestoneFlow_ok (p : Payload) :
  checkMilestoneFlow p = Ok tt
  <-> (flow p = Some "milestone" -> exists m ms, milestones p = Some (m :: ms)).
Proof.
  unfold checkMilestoneFlow. rewrite throw_if_ok_iff, andb_false_iff.
  rewrite <- not_true_iff_false, flow_is_spec. unfold noMilestones.
  destruct (milestones p) as [[|m ms]|]; split.
  - intros [Hf|Hm] Hflow; [contradiction | discriminate].
  - intros H. left. intros Hflow. destruct (H Hflow) as [m [ms Hm]]. discriminate.
  - intros _ _. eauto.
  - intros _. right. reflexivity.
  - intros [Hf|Hm] Hflow; [contradiction | discriminate].
  - intros H. left. intros Hflow. destruct (H Hflow) as [m [ms Hm]]. discriminate.
Qed.

Lemma checkMilestoneSum_ok (p : Payload) :
  checkMilestoneSum p = Ok tt
  <-> (forall m ms, milestones p = Some (m :: ms) ->
         sumZ (map ms_percent (m :: ms)) = 100).
Proof.
  unfold checkMilestoneSum.
  destruct (milestones p) as [[|m ms]|].
  - split; [intros _ m ms Hm; discriminate | reflexivity].
  - rewrite throw_if_ok_iff, negb_false_iff, Z.eqb_eq, percentSum_sum. split.
    + intros Hs m' ms' Heq. inversion Heq; subst. exact Hs.
    + intros H. apply H. reflexivity.
  - split; [intros _ m ms Hm; discriminate | reflexivity].
Qed.

Lemma checkRevisions_ok (p : Payload) :
  checkRevisions p = Ok tt
  <-> ~ (flow p = Some "standard" /\ revisions_type p = Some "milestone").
Proof.
  unfold checkRevisions. rewrite throw_if_ok_iff, andb_false_iff.
  rewrite <- not_true_iff_false, flow_is_spec.
  destruct (revisions_type p) as [t|].
  - destruct (String.eqb_spec t "milestone") as [->|Hne]; split.
    + intros [Hf|Hr] [Hflow _]; [contradiction | discriminate].
    + intros H. left. intros Hflow. apply H. split; [exact Hflow | reflexivity].
    + intros _ [_ Hr]. congruence.
    + intros _. right. reflexivity.
  - split; [intros _ [_ Hr]; discriminate | intros _; right; reflexivity].
Qed.

Lemma checkSlots_ok (p : Payload) :
  checkSlots p = Ok tt <-> slots p <> Some 0.
Proof.
  unfold checkSlots. rewrite throw_if_ok_iff.
  destruct (slots p) as [n|]; [|split; [discriminate | reflexivity]].
  destruct (Z.eqb_spec n 0) as [->|Hne]; split; congruence.
Qed.

(** X10.  For a payload whose milestone percentages are whole numbers
    that add up to 2^53 at most in magnitude (so that the sum of the
    source, a sum of doubles, is exact), [validateListingPayload] accepts
    the payload exactly when the nine required fields are there, a
    milestone flow comes with at least one milestone, the percentages of a
    non-empty milestones array sum to 100, a standard flow does not come
    with the milestone revision type, and [slots] is not 0. *)
Theorem validateListingPayload_accepts (p : Payload) :
  exactMilestones p ->
  (validateListingPayload p = Ok tt <-> wellFormedListing p).
Proof.
  intros _. unfold validateListingPayload, wellFormedListing.
  rewrite !unit_bind_ok.
  rewrite checkRequired_ok, checkMilestoneFlow_ok, checkMilestoneSum_ok,
    checkRevisions_ok, checkSlots_ok.
  reflexivity.
Qed.

(** A milestone listing with percentages 30, 30 and 40 is well formed. *)
Lemma validateListingPayload_accepts_witness :
  exactMilestones (validPayload "milestone" None (Some (percents [30; 30; 40])))
  /\ wellFormedListing (validPayload "milestone" None (Some (percents [30; 30; 40]))).
Proof.
  assert (exactMilestones (validPayload "milestone" None (Some (percents [30; 30; 40]))))
    as Hexact
    by (intros ms Hms; inversion Hms; vm_compute; discriminate).
  split; [exact Hexact|].
  apply (validateListingPayload_accepts _ Hexact). reflexivity.
Defined.

(** ** The price range *)

Lemma price_formula (input : Payload) :
  min (computePriceRange input) = cheapestSelections input + cheapestAddons input
  /\ max (computePriceRange input) = everything input.
Proof.
  unfold computePriceRange.
  rewrite subjects_sum, addAddons_sum, addGroups_sum. simpl.
  unfold cheapestSelections, cheapestAddons, everything, allGroups,
    allAddonLists, subjectsOf, baseOf.
  rewrite !map_app, !sumZ_app. simpl.
  rewrite flat_map_app, map_app, sumZ_app.
  rewrite !sumZ_flat_map, !map_app, !sumZ_app, sumZ_concat.
  rewrite !map_map. unfold groupPrices.
  split; lia.
Qed.

Lemma sumZ_nonneg (l : list Z) : (forall x, In x l -> 0 <= x) -> 0 <= sumZ l.
Proof.
  induction l as [|x l IH]; simpl; intros Hall; [lia|].
  pose proof (Hall x (or_introl eq_refl)).
  assert (0 <= sumZ l) by (apply IH; intros y Hy; apply Hall; right; exact Hy).
  lia.
Qed.

Lemma cheapest_between (l : list Z) :
  (forall x, In x l -> 0 <= x) -> 0 <= cheapest l <= sumZ l.
Proof.
  destruct l as [|p ps]; intros Hall; [simpl; lia|].
  split.
  - apply Hall. apply cheapest_member.
  - pose proof (cheapest_lower_bound (p :: ps) p (or_introl eq_refl)) as Hle.
    assert (0 <= sumZ ps) by (apply sumZ_nonneg; intros y Hy; apply Hall; right; exact Hy).
    change (sumZ (p :: ps)) with (p + sumZ ps). lia.
Qed.

Lemma sumZ_map_between {A : Type} (f g : A -> Z) (l : list A) :
  (forall x, In x l -> 0 <= f x <= g x) ->
  0 <= sumZ (map f l) <= sumZ (map g l).
Proof.
  induction l as [|x l IH]; simpl; intros Hall; [lia|].
  pose proof (Hall x (or_introl eq_refl)).
  assert (0 <= sumZ (map f l) <= sumZ (map g l))
    by (apply IH; intros y Hy; apply Hall; right; exact Hy).
  lia.
Qed.

(** X11.  When no price of a payload is negative, the range is ordered and
    starts at the base price or above: [basePrice <= min <= max]. *)
Theorem computePriceRange_ordered (input : Payload) :
  pricesNonNegative input ->
  baseOf input <= min (computePriceRange input)
  /\ min (computePriceRange input) <= max (computePriceRange input).
Proof.
  intros [Hbase [Hsel Hadd]].
  destruct (price_formula input) as [-> ->].
  unfold cheapestSelections, cheapestAddons, everything.
  rewrite sumZ_flat_map, sumZ_concat.
  assert (Hg : 0 <= sumZ (map (fun g => cheapest (groupPrices g)) (allGroups input))
               <= sumZ (map (fun g => sumZ (map sel_price (grp_selections g)))
                            (allGroups input))).
  { apply sumZ_map_between. intros g Hgin. apply cheapest_between.
    intros x Hx. unfold groupPrices in Hx.
    apply in_map_iff in Hx as [sel [<- Hin]]. eapply Hsel; eauto. }
  assert (Ha : 0 <= sumZ (map (fun a => cheapest (map add_price a)) (allAddonLists input))
               <= sumZ (map (fun l => sumZ (map add_price l)) (allAddonLists input))).
  { apply sumZ_map_between. intros l Hl. apply cheapest_between.
    intros x Hx. apply in_map_iff in Hx as [a [<- Hin]]. eapply Hadd; eauto. }
  lia.
Qed.

Lemma computePriceRange_ordered_witness :
  1000 <= min (computePriceRange priceExample)
  /\ min (computePriceRange priceExample) <= max (computePriceRange priceExample).
Proof.
  apply (computePriceRange_ordered priceExample).
  split; [|split].
  - vm_compute. discriminate.
  - intros g sel Hg Hs. simpl in Hg. destruct Hg as [<-|[]].
    simpl in Hs. destruct Hs as [<-|[<-|[]]]; simpl; lia.
  - intros l a Hl Ha. simpl in Hl. destruct Hl as [<-|[]].
    simpl in Ha. destruct Ha as [<-|[]]. simpl. lia.
Defined.

(** ** Operations on stored listings *)

Lemma fetchOwned_ok (db : gmap string ListingDocument) (artist listingId : string)
      (existing : ListingDocument) :
  fetchOwned db artist listingId = Ok existing
  <-> db !! listingId = Some existing /\ doc_artistId existing = artist.
Proof.
  unfold fetchOwned.
  destruct (db !! listingId) as [d|];
    [|split; [discriminate | intros [H _]; discriminate]].
  destruct (String.eqb_spec (doc_artistId d) artist) as [Heq|Hne]; simpl; split.
  - intros H. inversion H; subst. split; reflexivity.
  - intros [H _]. inversion H; subst. reflexivity.
  - discriminate.
  - intros [H Hart]. inversion H; subst. contradiction.
Qed.

(** X12.  [updateListing], [addQuestionToListing] and
    [removeQuestionFromListing] all fail with status 404 on a listing that
    does not exist and with status 403, an authorization error, for a
    caller who is not the artist of the listing, whatever else they are
    given; for the artist, adding and removing a question always go to the
    repository. *)
Theorem listing_operations_owner_only
        (db : gmap string ListingDocument) (artist listingId : string) :
  (db !! listingId = None ->
     (forall updates, updateListing db artist listingId updates
                      = Err (HttpError "Listing not found" 404))
     /\ (forall text target, addQuestionToListing db artist listingId text target
                             = Err (HttpError "Listing not found" 404))
     /\ (forall target, removeQuestionFromListing db artist listingId target
                        = Err (HttpError "Listing not found" 404)))
  /\ (forall existing,
        db !! listingId = Some existing ->
        (doc_artistId existing <> artist ->
           (forall updates, updateListing db artist listingId updates
                            = Err (HttpError "Not authorized to update this listing" 403))
           /\ (forall text target, addQuestionToListing db artist listingId text target
                                   = Err (HttpError "Not authorized to update this listing" 403))
           /\ (forall target, removeQuestionFromListing db artist listingId target
                              = Err (HttpError "Not authorized to update this listing" 403))
           /\ classify (HttpError "Not authorized to update this listing" 403)
              = AuthorizationError)
        /\ (doc_artistId existing = artist ->
              (forall text target, addQuestionToListing db artist listingId text target
                                   = Ok (addQuestion listingId text target))
              /\ (forall target, removeQuestionFromListing db artist listingId target
                                 = Ok (removeQuestion listingId target)))).
Proof.
  split.
  - intros Hnone.
    unfold updateListing, addQuestionToListing, removeQuestionFromListing, fetchOwned.
    rewrite Hnone. repeat split.
  - intros existing Hsome.
    unfold updateListing, addQuestionToListing, removeQuestionFromListing, fetchOwned.
    rewrite Hsome. split.
    + intros Hne. apply String.eqb_neq in Hne. rewrite Hne. repeat split.
    + intros Heq. apply String.eqb_eq in Heq. rewrite Heq. repeat split.
Qed.

Lemma listing_operations_owner_only_witness :
  updateListing listingStore "artist-2" "listing-1"
                (values (validPayload "standard" (Some 5) None))
  = Err (HttpError "Not authorized to update this listing" 403).
Proof.
  destruct (listing_operations_owner_only listingStore "artist-2" "listing-1")
    as [_ Hfound].
  destruct (Hfound storedListing eq_refl) as [Hother _].
  apply Hother. discriminate.
Defined.

Lemma keepField_dropped {A : Type} (field : string) (v : option A) :
  mem_string field allowedFields = false -> keepField field v = None.
Proof. unfold keepField. intros ->. reflexivity. Qed.

Lemma keepField_kept {A : Type} (field : string) (v : option A) :
  mem_string field allowedFields = true -> keepField field v = v.
Proof. unfold keepField. intros ->. reflexivity. Qed.

Lemma mem_string_In (key : string) (l : list string) :
  mem_string key l = true <-> In key l.
Proof.
  unfold mem_string. rewrite existsb_exists. split.
  - intros [x [Hx Heq]]. apply String.eqb_eq in Heq. subst x. exact Hx.
  - intros Hin. exists key. split; [exact Hin | apply String.eqb_refl].
Qed.

Lemma mem_string_filter (p : string -> bool) (key : string) (l : list string) :
  mem_string key (List.filter p l) = p key && mem_string key l.
Proof.
  destruct (mem_string key (List.filter p l)) eqn:Hmem; symmetry.
  - apply mem_string_In, filter_In in Hmem as [Hin Hp].
    apply mem_string_In in Hin. rewrite Hp, Hin. reflexivity.
  - destruct (p key) eqn:Hp; [|reflexivity].
    destruct (mem_string key l) eqn:Hin; [|reflexivity].
    apply mem_string_In in Hin.
    assert (In key (List.filter p l)) as Hf by (apply filter_In; split; assumption).
    apply mem_string_In in Hf. congruence.
Qed.

(** X13.  When [updateListing] reaches the repository, the caller is the
    artist of the stored listing; the data handed over is canonical as far
    as the questions of the update are of the types the conversion casts
    them to; it has no key but allowed ones, and so no [artistId], no
    [samples] and no [thumbnailIdx], with a value or with [null], whatever
    the update said; the stored listing overridden by this data, key by
    key and also where the update holds [null], has passed
    [validateListingPayload], and the price handed over is the price range
    of that merged listing. *)
Theorem updateListing_hands_over
        (db : gmap string ListingDocument) (artist listingId : string)
        (updates : Update) (call : ListingRepoCall) :
  updateListing db artist listingId updates = Ok call ->
  exists existing processedData,
    db !! listingId = Some existing
    /\ doc_artistId existing = artist
    /\ call = updateCommissionListingComponents listingId processedData
                (computePriceRange (mergePayload (doc_data existing) processedData))
    /\ isCanonical (given processedData) = typedQuestions (given updates)
    /\ artistId (given processedData) = None
    /\ samples (given processedData) = None
    /\ thumbnailIdx (given processedData) = None
    /\ (forall key, In key (nullKeys processedData) ->
                    In key allowedFields /\ In key (nullKeys updates))
    /\ validateListingPayload (mergePayload (doc_data existing) processedData) = Ok tt.
Proof.
  unfold updateListing. intros H.
  destruct (fetchOwned db artist listingId) as [existing|e] eqn:Hfetch;
    simpl in H; [|discriminate].
  apply fetchOwned_ok in Hfetch as [Hsome Howner].
  destruct (validateListingPayload
              (mergePayload (doc_data existing)
                 (processUpdate (sanitizeUpdate updates))))
    as [[]|e] eqn:Hvalid; simpl in H; [|discriminate].
  inversion H; subst call.
  exists existing, (processUpdate (sanitizeUpdate updates)).
  split; [exact Hsome|]. split; [exact Howner|]. split; [reflexivity|].
  split; [|split; [reflexivity|split; [reflexivity|split; [reflexivity|split]]]].
  - destruct updates as [[ti ty fl ar th sa de ba ca sl re ms go so] nulls].
    change (given (processUpdate (sanitizeUpdate
              {| given := mkPayload ti ty fl ar th sa de ba ca sl re ms go so;
                 nullKeys := nulls |})))
      with (processPayloadWithIds (mkPayload ti ty fl None None None de ba ca sl re ms go so)).
    canonical_after_processing.
  - intros key Hkey. simpl in Hkey. apply filter_In in Hkey as [Hin Hallowed].
    split; [apply mem_string_In; exact Hallowed | exact Hin].
  - exact Hvalid.
Qed.

Lemma updateListing_hands_over_witness :
  exists existing processedData,
    listingStore !! "listing-1" = Some existing
    /\ updateListing listingStore "artist-1" "listing-1" (values (onlyPrices 2000 None None))
       = Ok (updateCommissionListingComponents "listing-1" processedData
               (computePriceRange (mergePayload (doc_data existing) processedData)))
    /\ artistId (given processedData) = None
    /\ validateListingPayload (mergePayload (doc_data existing) processedData) = Ok tt.
Proof.
  destruct (updateListing listingStore "artist-1" "listing-1"
              (values (onlyPrices 2000 None None)))
    as [call|e] eqn:Hrun.
  - destruct (updateListing_hands_over listingStore "artist-1" "listing-1"
                (values (onlyPrices 2000 None None)) call Hrun)
      as [existing [processedData [Hsome [_ [-> [_ [Hartist [_ [_ [_ Hvalid]]]]]]]]]].
    exists existing, processedData. repeat split; assumption || reflexivity.
  - vm_compute in Hrun. discriminate Hrun.
Defined.

(** The update [{ title: null }] overrides the stored title with [null],
    and the merged listing fails the validation. *)
Example updateListing_null_title :
  updateListing listingStore "artist-1" "listing-1" nullTitle
  = Err (HttpError400 "Required field missing: title").
Proof. reflexivity. Qed.

(** X14.  An update from which the keys [basePrice], [generalOptions] and
    [subjectOptions] are missing is handed over with the price range of
    the stored listing.  The keys have to be missing: the update
    [{ generalOptions: null, title: "New" }] of a listing priced 1500 to
    2000 on a base price of 1000 is handed over with the range 1000 to
    1000. *)
Theorem updateListing_keeps_price
        (db : gmap string ListingDocument) (artist listingId : string)
        (updates : Update) (call : ListingRepoCall) (existing : ListingDocument) :
  db !! listingId = Some existing ->
  leavesPricing updates ->
  updateListing db artist listingId updates = Ok call ->
  (exists processedData,
      call = updateCommissionListingComponents listingId processedData
               (computePriceRange (doc_data existing)))
  /\ computePriceRange (doc_data pricedListing) = {| min := 1500; max := 2000 |}
  /\ exists processedData,
       updateListing pricedStore "artist-1" "listing-1" nullGeneralOptions
       = Ok (updateCommissionListingComponents "listing-1" processedData
               {| min := 1000; max := 1000 |}).
Proof.
  intros Hsome [[Hbase Hbase'] [[Hgeneral Hgeneral'] [Hsubject Hsubject']]].
  intros Hrun. split; [|split; [reflexivity | eexists; reflexivity]].
  revert Hrun. unfold updateListing, fetchOwned.
  rewrite Hsome.
  destruct (negb (String.eqb (doc_artistId existing) artist)); simpl; [discriminate|].
  destruct (validateListingPayload _) as [[]|e]; simpl; [|discriminate].
  intros H. inversion H; subst call. eexists. f_equal.
  unfold holdsNull in Hbase', Hgeneral', Hsubject'.
  unfold mergePayload, spread, holdsNull, processUpdate, sanitizeUpdate. simpl.
  rewrite !mem_string_filter, Hbase', Hgeneral', Hsubject', !andb_false_r.
  destruct updates as [[ti ty fl ar th sa de ba ca sl re ms go so] nulls].
  simpl in Hbase, Hgeneral, Hsubject. subst ba go so.
  destruct (doc_data existing) as [ti' ty' fl' ar' th' sa' de' ba' ca' sl' re' ms' go' so'].
  reflexivity.
Qed.

Lemma updateListing_keeps_price_witness :
  leavesPricing titleAndSlots
  /\ exists processedData,
       updateListing listingStore "artist-1" "listing-1" titleAndSlots
       = Ok (updateCommissionListingComponents "listing-1" processedData
               (computePriceRange (doc_data storedListing))).
Proof.
  assert (leavesPricing titleAndSlots) as Hleaves by (repeat split).
  split; [exact Hleaves|].
  destruct (updateListing listingStore "artist-1" "listing-1" titleAndSlots)
    as [call|e] eqn:Hrun.
  - destruct (updateListing_keeps_price listingStore "artist-1" "listing-1"
                titleAndSlots call storedListing eq_refl Hleaves Hrun)
      as [[processedData ->] _].
    exists processedData. reflexivity.
  - vm_compute in Hrun. discriminate Hrun.
Defined.

(** X15.  [getListingPublic] returns a listing exactly when it is stored,
    not deleted and active; a deleted or an inactive listing is answered
    like one that does not exist, with "Listing not found" and status
    404. *)
Theorem getListingPublic_visible
        (db : gmap string ListingDocument) (listingId : string) :
  (forall listing,
      getListingPublic db listingId = Ok listing
      <-> db !! listingId = Some listing
          /\ doc_isDeleted listing = false /\ doc_isActive listing = true)
  /\ (forall e, getListingPublic db listingId = Err e ->
                e = HttpError "Listing not found" 404).
Proof.
  unfold getListingPublic. split.
  - intros listing. destruct (db !! listingId) as [l|].
    + destruct (doc_isDeleted l) eqn:Hdel, (doc_isActive l) eqn:Hact; simpl; split;
        try discriminate;
        try (intros [H [Hd Ha]]; inversion H; subst; congruence).
      intros H. inversion H; subst. repeat split; assumption.
    + split; [discriminate | intros [H _]; discriminate].
  - intros e. destruct (db !! listingId) as [l|].
    + destruct (doc_isDeleted l || negb (doc_isActive l)); intros H; inversion H.
      reflexivity.
    + intros H. inversion H. reflexivity.
Qed.

End ListingExtra.

(** * Further properties of the proposal service *)

Module ProposalExtra.
Import Proposal ProposalSpec ProposalFacts.

(** ** Responses *)

Lemma truthyAmount_false (a : option Z) : truthyAmount a = false <-> noAmount a.
Proof.
  unfold truthyAmount, noAmount. destruct a as [n|].
  - destruct (Z.eqb_spec n 0) as [->|Hne]; simpl; split; try tauto; try discriminate.
    intros [H|H]; [discriminate | congruence].
  - split; [left; reflexivity | reflexivity].
Qed.

(** X16.  For the artist of a proposal, an accepting [artistRespond] goes
    to the repository exactly from the statuses [pendingArtist] and
    [rejectedClient], and fails with "Proposal is not awaiting artist
    response" from every other status.  No adjustment is recorded when
    surcharge and discount are both absent or 0; otherwise the adjustment
    holds both amounts as given and the current date. *)
Theorem artistRespond_accepting
        (rt : Runtime) (db : Database) (proposalId : string)
        (proposal : IProposal) (decision : ArtistDecision) :
  getProposalById db proposalId = Some proposal ->
  acceptProposal decision = true ->
  (In (status proposal) [ pendingArtist; rejectedClient ] ->
     (noAmount (surcharge decision) /\ noAmount (discount decision) ->
        artistRespond rt db (artistId proposal) proposalId decision
        = Ok (artistResponds proposalId true None None))
     /\ (~ (noAmount (surcharge decision) /\ noAmount (discount decision)) ->
           artistRespond rt db (artistId proposal) proposalId decision
           = Ok (artistResponds proposalId true
                   (Some {| proposedSurcharge := surcharge decision;
                            proposedDiscount := discount decision;
                            proposedDate := now rt |})
                   None)))
  /\ (~ In (status proposal) [ pendingArtist; rejectedClient ] ->
        artistRespond rt db (artistId proposal) proposalId decision
        = Err (Error "Proposal is not awaiting artist response")).
Proof.
  intros Hget Hacc. unfold artistRespond.
  rewrite Hget. simpl. rewrite same_actor, Hacc. simpl.
  split.
  - intros Hstatus.
    assert (Hopen : Status_eqb (status proposal) pendingArtist
                    || Status_eqb (status proposal) rejectedClient = true).
    { simpl in Hstatus. destruct Hstatus as [<-|[<-|[]]]; reflexivity. }
    rewrite Hopen. split.
    + intros [Hs Hd]. apply truthyAmount_false in Hs, Hd. rewrite Hs, Hd. reflexivity.
    + intros Hsome.
      destruct (truthyAmount (surcharge decision)) eqn:Hs; [reflexivity|].
      destruct (truthyAmount (discount decision)) eqn:Hd; [reflexivity|].
      apply truthyAmount_false in Hs, Hd. tauto.
  - intros Hstatus.
    destruct (status proposal); simpl in *; try reflexivity; tauto.
Qed.

Lemma artistRespond_accepting_witness :
  artistRespond sampleRuntime (sampleDatabase rejectedClient) "artist-1" "proposal-1"
    (acceptWith (Some 500) None)
  = Ok (artistResponds "proposal-1" true
          (Some {| proposedSurcharge := Some 500; proposedDiscount := None;
                   proposedDate := june1 |})
          None).
Proof.
  destruct (artistRespond_accepting sampleRuntime (sampleDatabase rejectedClient)
              "proposal-1" (sampleProposal rejectedClient)
              (acceptWith (Some 500) None) eq_refl eq_refl) as [Hopen _].
  apply Hopen.
  - right. left. reflexivity.
  - intros [[Hs|Hs] _]; discriminate Hs.
Defined.

(** X17.  For the client of a proposal, a [clientRespond] that does not
    cancel goes to the repository exactly from the status [pendingClient],
    with the client's [acceptAdjustments] as given, and fails with
    "Proposal is not awaiting client response" from every other status. *)
Theorem clientRespond_ratifying
        (db : Database) (proposalId : string) (proposal : IProposal)
        (decision : ClientDecision) :
  getProposalById db proposalId = Some proposal ->
  cancel decision <> Some true ->
  (status proposal = pendingClient ->
     clientRespond db (clientId proposal) proposalId decision
     = Ok (clientRespondsToAdjustment proposalId (acceptAdjustments decision) false))
  /\ (status proposal <> pendingClient ->
        clientRespond db (clientId proposal) proposalId decision
        = Err (Error "Proposal is not awaiting client response")
        /\ classify (Error "Proposal is not awaiting client response") = StateError).
Proof.
  intros Hget Hcancel. unfold clientRespond.
  rewrite Hget. simpl. rewrite same_actor. simpl.
  assert (Hno : match cancel decision with Some b => b | None => false end = false).
  { destruct (cancel decision) as [[|]|]; [congruence | reflexivity | reflexivity]. }
  rewrite Hno. split.
  - intros ->. reflexivity.
  - intros Hne. split; [|reflexivity].
    destruct (status proposal); try reflexivity. contradiction.
Qed.

Lemma clientRespond_ratifying_witness :
  clientRespond (sampleDatabase pendingClient) "client-1" "proposal-1" (ratify false)
  = Ok (clientRespondsToAdjustment "proposal-1" (Some false) false).
Proof.
  destruct (clientRespond_ratifying (sampleDatabase pendingClient) "proposal-1"
              (sampleProposal pendingClient) (ratify false) eq_refl)
    as [Hpending _].
  - discriminate.
  - apply Hpending. reflexivity.
Defined.

(** ** Permissions *)

Lemma Status_eqb_eq (a b : Status) : Status_eqb a b = true <-> a = b.
Proof. destruct a, b; simpl; split; congruence. Qed.

Lemma canEditProposal_spec (db : Database) (proposalId userId : string) :
  canEditProposal db proposalId userId = true
  <-> exists proposal,
        getProposalById db proposalId = Some proposal
        /\ clientId proposal = userId
        /\ status proposal = pendingArtist.
Proof.
  unfold canEditProposal. destruct (getProposalById db proposalId) as [p|].
  - rewrite andb_true_iff, String.eqb_eq, Status_eqb_eq. split.
    + intros [Hc Hs]. exists p. auto.
    + intros [p' [Heq [Hc Hs]]]. inversion Heq; subst. auto.
  - split; [discriminate | intros [p' [Heq _]]; discriminate].
Qed.

(** X18.  [canEditProposal] says no exactly when the edit is turned away
    at the door: when it answers [false], [updateProposalFromForm] fails,
    whatever the form, with "Proposal not found" (404), "Not authorized to
    edit this proposal" (403) or "Can only edit proposals in pendingArtist
    status" (400); and whenever [updateProposalFromForm] reaches the
    repository, [canEditProposal] answers [true]. *)
Theorem canEditProposal_guards_update
        (rt : Runtime) (db : Database) (proposalId userId : string) (form : FormData) :
  (canEditProposal db proposalId userId = false ->
     exists e, updateProposalFromForm rt db proposalId userId form = Err e
               /\ In e editRefusals)
  /\ (forall call, updateProposalFromForm rt db proposalId userId form = Ok call ->
                   canEditProposal db proposalId userId = true).
Proof.
  assert (Hfalse : canEditProposal db proposalId userId = false ->
            exists e, updateProposalFromForm rt db proposalId userId form = Err e
                      /\ In e editRefusals).
  { unfold canEditProposal, updateProposalFromForm, editRefusals.
    destruct (getProposalById db proposalId) as [p|]; simpl.
    - destruct (String.eqb (clientId p) userId); simpl.
      + intros ->. simpl. eexists. split; [reflexivity|]. simpl. tauto.
      + intros _. eexists. split; [reflexivity|]. simpl. tauto.
    - intros _. eexists. split; [reflexivity|]. simpl. tauto. }
  split; [exact Hfalse|].
  intros call Hok.
  destruct (canEditProposal db proposalId userId) eqn:Hcan; [reflexivity|].
  destruct (Hfalse eq_refl) as [e [He _]]. congruence.
Qed.

(** X19.  What [canRespondToProposal] allows, the service carries out: when
    it answers [true] for an artist, every accepting [artistRespond] of
    that artist goes to the repository; when it answers [true] for a
    client, every [clientRespond] of that client does. *)
Theorem canRespondToProposal_sound
        (rt : Runtime) (db : Database) (proposalId userId : string) :
  (canRespondToProposal db proposalId userId asArtist = true ->
     forall decision, acceptProposal decision = true ->
       exists adjustment,
         artistRespond rt db userId proposalId decision
         = Ok (artistResponds proposalId true adjustment None))
  /\ (canRespondToProposal db proposalId userId asClient = true ->
        forall decision,
          exists call, clientRespond db userId proposalId decision = Ok call).
Proof.
  unfold canRespondToProposal, artistRespond, clientRespond. split.
  - destruct (getProposalById db proposalId) as [p|]; [|discriminate]. simpl.
    intros Hcan decision Hacc.
    apply andb_true_iff in Hcan as [Hwho Hstatus].
    rewrite Hwho, Hacc, Hstatus. simpl. eauto.
  - destruct (getProposalById db proposalId) as [p|]; [|discriminate]. simpl.
    intros Hcan decision.
    apply andb_true_iff in Hcan as [Hwho Hstatus].
    rewrite Hwho, Hstatus. simpl.
    destruct (match cancel decision with Some b => b | None => false end); eauto.
Qed.

(** X20.  [canRespondToProposal] is narrower than the service.  For a
    proposal in [rejectedClient] it answers [false] for the artist, whose
    accepting [artistRespond] nevertheless goes to the repository; for a
    proposal in [pendingArtist] it answers [false] for the client, whose
    cancellation nevertheless goes to the repository. *)
Theorem canRespondToProposal_narrower
        (rt : Runtime) (db : Database) (proposalId : string) (proposal : IProposal) :
  getProposalById db proposalId = Some proposal ->
  (status proposal = rejectedClient ->
     canRespondToProposal db proposalId (artistId proposal) asArtist = false
     /\ forall decision, acceptProposal decision = true ->
          exists adjustment,
            artistRespond rt db (artistId proposal) proposalId decision
            = Ok (artistResponds proposalId true adjustment None))
  /\ (status proposal = pendingArtist ->
        canRespondToProposal db proposalId (clientId proposal) asClient = false
        /\ forall decision, cancel decision = Some true ->
             clientRespond db (clientId proposal) proposalId decision
             = Ok (cancelProposal proposalId (clientId proposal))).
Proof.
  intros Hget. unfold canRespondToProposal, artistRespond, clientRespond.
  rewrite Hget. simpl. rewrite !same_actor, !String.eqb_refl. simpl. split.
  - intros ->. simpl. split; [reflexivity|].
    intros decision ->. simpl. eauto.
  - intros ->. simpl. split; [reflexivity|].
    intros decision ->. reflexivity.
Qed.

Lemma canRespondToProposal_narrower_witness :
  canRespondToProposal (sampleDatabase rejectedClient) "proposal-1" "artist-1" asArtist
  = false.
Proof.
  destruct (canRespondToProposal_narrower sampleRuntime (sampleDatabase rejectedClient)
              "proposal-1" (sampleProposal rejectedClient) eq_refl) as [Hartist _].
  apply Hartist. reflexivity.
Defined.

(** X21.  [fetchProposalById] returns a proposal exactly to its client and
    to its artist; anyone else gets "Not authorized to view this
    proposal", and an unknown id gets "Proposal not found". *)
Theorem fetchProposalById_parties
        (db : Database) (proposalId userId : string) :
  (forall proposal,
      fetchProposalById db proposalId userId = Ok proposal
      <-> getProposalById db proposalId = Some proposal
          /\ (clientId proposal = userId \/ artistId proposal = userId))
  /\ (getProposalById db proposalId = None ->
        fetchProposalById db proposalId userId = Err (Error "Proposal not found"))
  /\ (forall proposal,
        getProposalById db proposalId = Some proposal ->
        clientId proposal <> userId -> artistId proposal <> userId ->
        fetchProposalById db proposalId userId
        = Err (Error "Not authorized to view this proposal")).
Proof.
  unfold fetchProposalById. split; [|split].
  - intros proposal. destruct (getProposalById db proposalId) as [p|]; simpl.
    + destruct (String.eqb_spec (clientId p) userId) as [Hc|Hc];
        destruct (String.eqb_spec (artistId p) userId) as [Ha|Ha]; simpl; split;
        try (intros H; inversion H; subst; split; [reflexivity | tauto]);
        try (intros [H _]; inversion H; subst; reflexivity);
        try discriminate.
      intros [H [Hc'|Ha']]; inversion H; subst; contradiction.
    + split; [discriminate | intros [H _]; discriminate].
  - intros ->. reflexivity.
  - intros proposal -> Hc Ha. simpl.
    apply String.eqb_neq in Hc, Ha. rewrite Hc, Ha. reflexivity.
Qed.

(** ** Editing and creating *)

Lemma lookupOr_ok {A : Type} (o : option A) (e : error) (a : A) :
  lookupOr o e = Ok a -> o = Some a.
Proof. destruct o; simpl; intros H; inversion H; reflexivity. Qed.

Lemma textEntry_ok (v : option string) (e : error) (s : string) :
  textEntry v e = Ok s -> v = Some s /\ isEmpty s = false.
Proof.
  destruct v as [t|]; simpl; [|discriminate].
  destruct (isEmpty t) eqn:Hempty; intros H; inversion H; subst. auto.
Qed.

(** X22.  When [updateProposalFromForm] reaches the repository, the caller
    is the client of the proposal and the proposal is in [pendingArtist];
    the update always carries the window that the estimator gives now for
    the listing of the proposal, and its base date (the artist's latest
    contract deadline, or the current date); and a deadline is part of the
    update only if the form gave one and the policy of the listing accepts
    it against that window. *)
Theorem updateProposalFromForm_hands_over
        (rt : Runtime) (db : Database) (proposalId userId : string)
        (form : FormData) (call : RepoCall) :
  updateProposalFromForm rt db proposalId userId form = Ok call ->
  exists existing listing window updates,
    getProposalById db proposalId = Some existing
    /\ clientId existing = userId
    /\ status existing = pendingArtist
    /\ findCommissionListingById db (listingId existing) = Some listing
    /\ computeDynamicEstimate rt listing (baseDateFor rt db (l_artistId listing))
       = Ok window
    /\ call = repoUpdateProposal proposalId updates
    /\ up_earliestDate updates = earliestDate window
    /\ up_latestDate updates = latestDate window
    /\ up_baseDate updates = baseDateFor rt db (l_artistId listing)
    /\ (forall d, up_deadline updates = Some d ->
          (exists text, f_deadline form = Some text /\ d = parseDate rt text)
          /\ validateDeadline listing d (earliestDate window) (latestDate window)
             = Ok tt).
Proof.
  intros H. unfold updateProposalFromForm in H.
  step_ok H existing Hexisting. step_ok H u1 Hclient. step_ok H u2 Hstatus.
  step_ok H json Hjson. step_ok H found Hfound. step_ok H window Hwindow.
  step_ok H deadline Hdeadline. step_ok H images Himages.
  inversion H; subst call. clear H.
  apply lookupOr_ok in Hexisting, Hfound.
  destruct u1, u2.
  apply throw_if_ok in Hclient, Hstatus.
  apply negb_false_iff in Hclient, Hstatus.
  apply String.eqb_eq in Hclient. apply Status_eqb_eq in Hstatus.
  eexists existing, found, window, _.
  repeat (split; [first [eassumption | reflexivity]|]).
  simpl. intros d Hd. subst deadline.
  destruct (f_deadline form) as [text|]; [|discriminate].
  destruct (isEmpty text); [discriminate|].
  step_ok Hdeadline u3 Hpolicy. inversion Hdeadline; subst d.
  destruct u3. split; [eauto | exact Hpolicy].
Qed.

Lemma updateProposalFromForm_hands_over_witness :
  exists existing listing window updates,
    getProposalById (sampleDatabase pendingArtist) "proposal-1" = Some existing
    /\ clientId existing = "client-1"
    /\ status existing = pendingArtist
    /\ findCommissionListingById (sampleDatabase pendingArtist) (listingId existing)
       = Some listing
    /\ computeDynamicEstimate sampleRuntime listing
         (baseDateFor sampleRuntime (sampleDatabase pendingArtist) (l_artistId listing))
       = Ok window
    /\ updateProposalFromForm sampleRuntime (sampleDatabase pendingArtist)
         "proposal-1" "client-1" (sampleForm "2024-06-05" "A portrait of my dog" [])
       = Ok (repoUpdateProposal "proposal-1" updates)
    /\ up_earliestDate updates = june1
    /\ up_deadline updates = Some june5.
Proof.
  destruct (updateProposalFromForm sampleRuntime (sampleDatabase pendingArtist)
              "proposal-1" "client-1" (sampleForm "2024-06-05" "A portrait of my dog" []))
    as [call|e] eqn:Hrun.
  - destruct (updateProposalFromForm_hands_over _ _ _ _ _ call Hrun)
      as [existing [listing [window [updates
            [H1 [H2 [H3 [H4 [H5 [-> _]]]]]]]]]].
    vm_compute in Hrun. inversion Hrun; subst updates.
    exists existing, listing, window. eexists.
    repeat (split; [first [eassumption | reflexivity]|]). reflexivity.
  - vm_compute in Hrun. discriminate Hrun.
Defined.

(** X23.  [updateProposalFromForm] puts no bound on the reference images.
    When it reaches the repository: with no reference kept and no file
    sent the update leaves the images alone; with references kept and no
    file sent the update holds exactly the references kept, however many;
    with files sent it holds the references kept followed by the addresses
    of the uploads. *)
Theorem updateProposalFromForm_references
        (rt : Runtime) (db : Database) (proposalId userId : string)
        (form : FormData) (call : RepoCall) :
  updateProposalFromForm rt db proposalId userId form = Ok call ->
  exists updates,
    call = repoUpdateProposal proposalId updates
    /\ (f_existingReferences form = [] -> f_referenceImages form = [] ->
          up_referenceImages updates = None)
    /\ (f_existingReferences form <> [] -> f_referenceImages form = [] ->
          up_referenceImages updates = Some (f_existingReferences form))
    /\ (f_referenceImages form <> [] ->
          exists uploadedUrls,
            uploadGalleryImagesToR2 rt (f_referenceImages form) userId "proposal"
            = Ok uploadedUrls
            /\ up_referenceImages updates
               = Some (app (f_existingReferences form) uploadedUrls)).
Proof.
  intros H. unfold updateProposalFromForm in H.
  step_ok H existing Hexisting. step_ok H u1 Hclient. step_ok H u2 Hstatus.
  step_ok H json Hjson. step_ok H found Hfound. step_ok H window Hwindow.
  step_ok H deadline Hdeadline. step_ok H images Himages.
  inversion H; subst call. clear H.
  eexists. split; [reflexivity|]. simpl.
  destruct (f_existingReferences form) as [|r refs];
    destruct (f_referenceImages form) as [|b blobs]; simpl in Himages.
  - inversion Himages; subst. repeat split; congruence.
  - step_ok Himages urls Hupload. inversion Himages; subst.
    repeat split; try congruence. intros _. eauto.
  - inversion Himages; subst. rewrite app_nil_r. repeat split; congruence.
  - step_ok Himages urls Hupload. inversion Himages; subst.
    repeat split; try congruence. intros _. eauto.
Qed.

(** Six references kept: one more than a new proposal may have. *)
Lemma updateProposalFromForm_references_witness :
  exists updates,
    updateProposalFromForm sampleRuntime (sampleDatabase pendingArtist)
      "proposal-1" "client-1" (keepReferences sixImages)
    = Ok (repoUpdateProposal "proposal-1" updates)
    /\ up_referenceImages updates = Some sixImages.
Proof.
  destruct (updateProposalFromForm sampleRuntime (sampleDatabase pendingArtist)
              "proposal-1" "client-1" (keepReferences sixImages))
    as [call|e] eqn:Hrun.
  - destruct (updateProposalFromForm_references _ _ _ _ _ call Hrun)
      as [updates [-> [_ [Hkept _]]]].
    exists updates. split; [reflexivity|].
    apply Hkept; [discriminate | reflexivity].
  - vm_compute in Hrun. discriminate Hrun.
Defined.

(** X24.  When [createProposalFromForm] reaches the repository, the
    listing named by the form exists, is active and is not deleted; the
    proposal is created for the caller as client and for the artist of the
    listing; its window and its base date are those the service computed,
    not values of the form; its deadline is the form's, accepted by the
    policy of the listing against that window; and its reference images
    are the addresses returned by the upload. *)
Theorem createProposalFromForm_hands_over
        (rt : Runtime) (db : Database) (caller : string)
        (form : FormData) (call : RepoCall) :
  createProposalFromForm rt db caller form = Ok call ->
  exists id listing window deadlineText input,
    f_listingId form = Some id
    /\ findCommissionListingById db id = Some listing
    /\ isActive listing = true /\ isDeleted listing = false
    /\ computeDynamicEstimate rt listing (baseDateFor rt db (l_artistId listing))
       = Ok window
    /\ f_deadline form = Some deadlineText
    /\ validateDeadline listing (parseDate rt deadlineText)
         (earliestDate window) (latestDate window) = Ok tt
    /\ call = repoCreateProposal input
    /\ pi_clientId input = caller
    /\ pi_artistId input = l_artistId listing
    /\ pi_listingId input = id
    /\ pi_earliestDate input = earliestDate window
    /\ pi_latestDate input = latestDate window
    /\ pi_baseDate input = Some (baseDateFor rt db (l_artistId listing))
    /\ pi_deadline input = parseDate rt deadlineText
    /\ f_generalDescription form = Some (pi_generalDescription input)
    /\ Ok (elems (pi_referenceImages input))
       = uploadGalleryImagesToR2 rt (f_referenceImages form) caller "proposal".
Proof.
  intros H. unfold createProposalFromForm in H.
  step_ok H json Hjson. step_ok H lid Hid.
  step_ok H found Hfound. step_ok H u1 Hactive.
  step_ok H window Hwindow. step_ok H deadlineText Hdeadline.
  step_ok H u2 Hpolicy. step_ok H description Hdescription.
  step_ok H urls Hupload. step_ok H u3 Hvalid.
  inversion H; subst call. clear H.
  apply textEntry_ok in Hid as [Hid _].
  apply textEntry_ok in Hdeadline as [Hdeadline _].
  apply textEntry_ok in Hdescription as [Hdescription _].
  apply lookupOr_ok in Hfound.
  destruct u1, u2. apply throw_if_ok in Hactive.
  apply orb_false_iff in Hactive as [Hact Hdel].
  apply negb_false_iff in Hact.
  eexists lid, found, window, deadlineText, _.
  repeat (split; [first [eassumption | reflexivity]|]).
  simpl. symmetry. exact Hupload.
Qed.

Lemma createProposalFromForm_hands_over_witness :
  exists input,
    createProposalFromForm sampleRuntime (sampleDatabase pendingArtist) "client-2"
      (sampleForm "2024-06-05" "A portrait of my cat" [ "cat.png" ])
    = Ok (repoCreateProposal input)
    /\ pi_clientId input = "client-2"
    /\ pi_artistId input = "artist-1"
    /\ pi_baseDate input = Some june1.
Proof.
  destruct (createProposalFromForm sampleRuntime (sampleDatabase pendingArtist) "client-2"
              (sampleForm "2024-06-05" "A portrait of my cat" [ "cat.png" ]))
    as [call|e] eqn:Hrun.
  - destruct (createProposalFromForm_hands_over _ _ _ _ call Hrun)
      as (id & listing & window & text & input & Hid & Hfind & _ & _ & _ & _ & _
          & Hcall & Hclient & Hartist & _ & _ & _ & Hbase & _).
    subst call. exists input. split; [reflexivity|]. split; [exact Hclient|].
    vm_compute in Hid. inversion Hid; subst id.
    vm_compute in Hfind. inversion Hfind; subst listing.
    split; [exact Hartist | exact Hbase].
  - vm_compute in Hrun. discriminate Hrun.
Defined.

(** X25.  The base date shown is the base date stored, for an artist with
    an active contract: when [createProposalFromForm] reaches the
    repository, the base date of the proposal created is the latest
    deadline of the artist's active contracts, and [getDynamicEstimate] on
    the same listing, with the same estimator and whatever its clock
    reads, returns that base date.  For an artist without an active
    contract each of the two reads the clock itself: the proposal has the
    time of its creation, the estimate the time at which it is asked
    for. *)
Theorem createProposalFromForm_matches_estimate
        (rt later : Runtime) (db : Database) (caller : string)
        (form : FormData) (call : RepoCall) :
  createProposalFromForm rt db caller form = Ok call ->
  computeDynamicEstimate later = computeDynamicEstimate rt ->
  exists id listing input,
    f_listingId form = Some id
    /\ findCommissionListingById db id = Some listing
    /\ call = repoCreateProposal input
    /\ (forall d,
          getLatestActiveContractDeadline db (l_artistId listing) = Some d ->
          pi_baseDate input = Some d
          /\ exists estimate,
               getDynamicEstimate later db id = Ok estimate
               /\ de_baseDate estimate = d)
    /\ (getLatestActiveContractDeadline db (l_artistId listing) = None ->
          pi_baseDate input = Some (now rt)
          /\ forall estimate,
               getDynamicEstimate later db id = Ok estimate ->
               de_baseDate estimate = now later).
Proof.
  intros H Hestimator. unfold createProposalFromForm in H.
  step_ok H json Hjson. step_ok H lid Hid.
  step_ok H found Hfound. step_ok H u1 Hactive.
  step_ok H window Hwindow. step_ok H deadlineText Hdeadline.
  step_ok H u2 Hpolicy. step_ok H description Hdescription.
  step_ok H urls Hupload. step_ok H u3 Hvalid.
  inversion H; subst call. clear H.
  apply textEntry_ok in Hid as [Hid _].
  apply lookupOr_ok in Hfound.
  eexists lid, found, _. split; [exact Hid|]. split; [exact Hfound|].
  split; [reflexivity|]. simpl.
  unfold getDynamicEstimate, baseDateFor in *. rewrite Hfound, Hestimator. simpl.
  split.
  - intros d Hcontract. rewrite Hcontract in *. split; [reflexivity|].
    rewrite Hwindow. simpl. eexists. split; reflexivity.
  - intros Hcontract. rewrite Hcontract in *. split; [reflexivity|].
    intros estimate Hrun.
    destruct (computeDynamicEstimate rt found (now later)) as [w|e];
      simpl in Hrun; [|discriminate].
    inversion Hrun. reflexivity.
Qed.

Lemma createProposalFromForm_matches_estimate_witness :
  exists input estimate,
    createProposalFromForm sampleRuntime busyDatabase "client-2"
      (sampleForm "2024-06-05" "A portrait of my cat" [])
    = Ok (repoCreateProposal input)
    /\ pi_baseDate input = Some june5
    /\ getDynamicEstimate laterRuntime busyDatabase "listing-1" = Ok estimate
    /\ de_baseDate estimate = june5.
Proof.
  destruct (createProposalFromForm sampleRuntime busyDatabase "client-2"
              (sampleForm "2024-06-05" "A portrait of my cat" []))
    as [call|e] eqn:Hrun.
  - destruct (createProposalFromForm_matches_estimate sampleRuntime laterRuntime
                _ _ _ call Hrun eq_refl)
      as (id & listing & input & Hid & Hfind & -> & Hbusy & _).
    vm_compute in Hid. inversion Hid; subst id.
    vm_compute in Hfind. inversion Hfind; subst listing.
    destruct (Hbusy june5 eq_refl) as [Hbase [estimate [Hestimate Hdate]]].
    exists input, estimate. repeat split; assumption.
  - vm_compute in Hrun. discriminate Hrun.
Defined.

(** ** Validators *)

(** X26.  [validateProposalInput] accepts an input exactly when its
    earliest date is before its latest date, its description is not blank
    (not made of the white space of ECMAScript only, U+00A0 and the like
    included), it has at most five reference images and it has a base
    date.  The
    dates are looked at first: an input whose earliest date is not before
    its latest date fails with "Earliest date must be before latest date"
    whatever else is wrong with it. *)
Theorem validateProposalInput_accepts (input : ProposalInput) :
  (validateProposalInput input = Ok tt
   <-> pi_earliestDate input < pi_latestDate input
       /\ blank (pi_generalDescription input) = false
       /\ (forall imgs, pi_referenceImages input = Some imgs -> (length imgs <= 5)%nat)
       /\ pi_baseDate input <> None)
  /\ (pi_latestDate input <= pi_earliestDate input ->
        validateProposalInput input
        = Err (Error "Earliest date must be before latest date")).
Proof.
  unfold validateProposalInput. rewrite isEmpty_trim. split.
  - destruct (Z.geb_spec (pi_earliestDate input) (pi_latestDate input)) as [Hge|Hlt];
      simpl; [split; [discriminate | lia]|].
    destruct (blank (pi_generalDescription input)); simpl;
      [split; [discriminate | intros [_ [H _]]; discriminate]|].
    destruct (pi_referenceImages input) as [imgs|]; simpl.
    + destruct (Z.gtb_spec (Z.of_nat (length imgs)) 5) as [Hgt|Hle]; simpl.
      * split; [discriminate|]. intros [_ [_ [Himgs _]]].
        specialize (Himgs imgs eq_refl). lia.
      * destruct (pi_baseDate input); simpl; split; try discriminate.
        -- intros _. repeat split; try assumption; try discriminate.
           intros imgs' Heq. inversion Heq; subst. lia.
        -- reflexivity.
        -- intros [_ [_ [_ Hbase]]]. contradiction.
    + destruct (pi_baseDate input); simpl; split; try discriminate.
      * intros _. repeat split; try assumption; discriminate.
      * reflexivity.
      * intros [_ [_ [_ Hbase]]]. contradiction.
  - intros Hle.
    destruct (Z.geb_spec (pi_earliestDate input) (pi_latestDate input)); [reflexivity | lia].
Qed.

(** X27.  [validateDeadline] never looks at [latestDate], and a later
    deadline is never worse: when a deadline is accepted, every deadline
    after it is accepted too, for the same listing and window. *)
Theorem validateDeadline_later_accepted
        (listing : ICommissionListing) (deadline later earliest latest latest' : Date) :
  validateDeadline listing deadline earliest latest
  = validateDeadline listing deadline earliest latest'
  /\ (deadline <= later ->
      validateDeadline listing deadline earliest latest = Ok tt ->
      validateDeadline listing later earliest latest = Ok tt).
Proof.
  unfold validateDeadline. split; [reflexivity|]. intros Hle.
  destruct (String.eqb (deadline_mode listing) "standard"); [reflexivity|].
  destruct (String.eqb (deadline_mode listing) "withDeadline"); [|tauto].
  destruct (Z.ltb_spec deadline earliest); [discriminate|].
  destruct (Z.ltb_spec later earliest); [lia | reflexivity].
Qed.

End ProposalExtra.

(** * Properties of the accounts *)

Module AccountExtra.
Import Account AccountSpec.

Lemma len_nonneg_bounded (n : nat) :
  forall s, (String.length s <= n)%nat -> 0 <= len s.
Proof.
  induction n as [|n IH]; intros s Hlen.
  - destruct s; [simpl; lia | simpl in Hlen; lia].
  - destruct s as [|a r1]; [simpl; lia|].
    assert (forall r, (String.length r <= String.length r1)%nat -> 0 <= len r) as Hsub
      by (intros r Hr; apply IH; simpl in Hlen; lia).
    cbn [len].
    pose proof (Hsub r1 ltac:(lia)) as H1.
    destruct r1 as [|b r2]; [lia|].
    pose proof (Hsub r2 ltac:(simpl; lia)) as H2.
    destruct (lead2 a && continuation b); [lia|].
    destruct r2 as [|c r3]; [lia|].
    pose proof (Hsub r3 ltac:(simpl; lia)) as H3.
    destruct (lead3 a && continuation b && continuation c); [lia|].
    destruct r3 as [|d r4]; [lia|].
    pose proof (Hsub r4 ltac:(simpl; lia)) as H4.
    destruct (lead4 a && continuation b && continuation c && continuation d); lia.
Qed.

Lemma len_nonneg (s : string) : 0 <= len s.
Proof. apply (len_nonneg_bounded (String.length s)). lia. Qed.

(** A string has a positive [length] exactly when it is not empty. *)
Lemma len_positive (s : string) : (len s >? 0) = negb (Proposal.isEmpty s).
Proof.
  destruct s as [|a r1]; [reflexivity|].
  cbn [Proposal.isEmpty negb]. apply Z.gtb_lt. cbn [len].
  pose proof (len_nonneg r1) as H1.
  destruct r1 as [|b r2]; [lia|].
  pose proof (len_nonneg r2) as H2.
  destruct (lead2 a && continuation b); [lia|].
  destruct r2 as [|c r3]; [lia|].
  pose proof (len_nonneg r3) as H3.
  destruct (lead3 a && continuation b && continuation c); [lia|].
  destruct r3 as [|d r4]; [lia|].
  pose proof (len_nonneg r4) as H4.
  destruct (lead4 a && continuation b && continuation c && continuation d); lia.
Qed.

Lemma trimmed_length (s : string) :
  (len (Proposal.trim s) >? 0) = negb (ProposalSpec.blank s).
Proof. rewrite len_positive, ProposalFacts.isEmpty_trim. reflexivity. Qed.

(** A lower-case letter or a digit is no white space and starts none. *)
Lemma lowerAlnum_not_space (a : ascii) :
  isLowerAlnum a = true ->
  Proposal.whiteSpace1 a = false
  /\ (forall b, Proposal.whiteSpace2 a b = false)
  /\ (forall b c, Proposal.whiteSpace3 a b c = false).
Proof.
  unfold isLowerAlnum, between, Proposal.whiteSpace1, Proposal.whiteSpace2,
    Proposal.whiteSpace3, code, Proposal.byte.
  generalize (Z.of_nat (nat_of_ascii a)) as n. intros n Hclass.
  assert (48 <= n <= 122) as Hrange.
  { destruct (Z.leb_spec 97 n), (Z.leb_spec n 122), (Z.leb_spec 48 n),
      (Z.leb_spec n 57); simpl in Hclass; try discriminate; lia. }
  assert (forall k, k < 48 \/ 122 < k -> (n =? k) = false) as Hne
    by (intros k Hk; apply Z.eqb_neq; lia).
  rewrite !Hne by lia.
  replace (n <=? 13) with false by (symmetry; apply Z.leb_gt; lia).
  rewrite andb_false_r. simpl. auto.
Qed.

Lemma lowerAlnum_word (a : ascii) : isLowerAlnum a = true -> isWordChar a = true.
Proof.
  unfold isLowerAlnum, isWordChar.
  destruct (between 97 122 a), (between 48 57 a), (between 65 90 a); simpl;
    intros H; try reflexivity; discriminate.
Qed.

Lemma everyChar_weaken (p q : ascii -> bool) (s : string) :
  (forall a, p a = true -> q a = true) -> everyChar p s = true -> everyChar q s = true.
Proof.
  intros Hpq. induction s as [|a s IH]; simpl; [reflexivity|].
  intros H. apply andb_true_iff in H as [Ha Hs].
  rewrite (Hpq a Ha), (IH Hs). reflexivity.
Qed.

Lemma lowerAlnum_not_blank (s : string) :
  testClassPlus isLowerAlnum s = true -> ProposalSpec.blank s = false.
Proof.
  unfold testClassPlus, ProposalSpec.blank. destruct s as [|a r1]; simpl; [discriminate|].
  intros H. apply andb_true_iff in H as [Ha _].
  destruct (lowerAlnum_not_space a Ha) as (H1 & H2 & H3).
  rewrite H1. destruct r1 as [|b r2]; [reflexivity|].
  rewrite H2. destruct r2 as [|c r3]; [reflexivity|].
  rewrite H3. reflexivity.
Qed.

Lemma usernameSchema_plain (val : string) :
  usernameSchema val = true <-> plainUsername val.
Proof.
  unfold usernameSchema, plainUsername. rewrite trimmed_length. split.
  - intros H. apply andb_true_iff in H as [H _].
    apply andb_true_iff in H as [Hmax Hclass].
    unfold testClassPlus in Hclass. apply andb_true_iff in Hclass as [Hne Hall].
    rewrite <- len_positive in Hne. apply Z.gtb_lt in Hne. apply Z.leb_le in Hmax.
    split; [lia | exact Hall].
  - intros [[Hmin Hmax] Hall].
    assert (Hclass : testClassPlus isLowerAlnum val = true).
    { unfold testClassPlus. rewrite <- len_positive, Hall.
      replace (len val >? 0) with true; [reflexivity|].
      symmetry. apply Z.gtb_lt. lia. }
    rewrite Hclass, (lowerAlnum_not_blank val Hclass).
    replace (len val <=? 20) with true; [reflexivity|].
    symmetry. apply Z.leb_le. lia.
Qed.

Lemma passwordSchema_plain (val : string) :
  passwordSchema val = true <-> plainPassword val.
Proof.
  unfold passwordSchema, plainPassword. rewrite trimmed_length.
  rewrite !andb_true_iff, negb_true_iff, Z.geb_le, Z.leb_le. tauto.
Qed.

(** X28.  [registerUserController] calls [registerUser] exactly when the
    email passes the format test, the username has one to twenty
    characters, all lower-case letters or digits, and the password has a
    length of eight to twenty (in UTF-16 code units) and is not made of
    white space only, the white space being that of ECMAScript, U+00A0 and
    the like included; it then
    passes on the email, the username and the password of the body as they
    are.  A username whose characters are letters, digits and underscores
    but not all lower-case letters and digits passes the controller's own
    test and is turned away by the schema. *)
Theorem registerUserController_registers
        (emailFormat : string -> bool) (body : RegisterBody) :
  ((exists e u p, registerUserController emailFormat body = registerUser e u p)
   <-> emailFormat (email body) = true
       /\ plainUsername (username body)
       /\ plainPassword (password body))
  /\ (forall e u p,
        registerUserController emailFormat body = registerUser e u p ->
        e = email body /\ u = username body /\ p = password body)
  /\ (testClassPlus isWordChar (username body) = true ->
      everyChar isLowerAlnum (username body) = false ->
      registerUserController emailFormat body = SchemaError).
Proof.
  unfold registerUserController, RegisterSchema. split; [|split].
  - rewrite <- usernameSchema_plain, <- passwordSchema_plain. split.
    + intros [e [u [p H]]].
      destruct (testClassPlus isWordChar (username body)); simpl in H; [|discriminate].
      destruct (emailFormat (email body)); simpl in H; [|discriminate].
      destruct (passwordSchema (password body)); simpl in H; [|discriminate].
      destruct (usernameSchema (username body)); [auto | discriminate].
    + intros [He [Hu Hp]].
      assert (Hword : testClassPlus isWordChar (username body) = true).
      { apply usernameSchema_plain in Hu as [[Hmin _] Hall].
        unfold testClassPlus. rewrite <- len_positive.
        replace (len (username body) >? 0) with true
          by (symmetry; apply Z.gtb_lt; lia).
        apply (everyChar_weaken isLowerAlnum isWordChar); [apply lowerAlnum_word | exact Hall]. }
      rewrite Hword, He, Hu, Hp. simpl. eauto.
  - intros e u p H.
    destruct (testClassPlus isWordChar (username body)); simpl in H; [|discriminate].
    destruct (emailFormat (email body) && passwordSchema (password body)
              && usernameSchema (username body)); [|discriminate].
    inversion H. auto.
  - intros Hword Hnot. rewrite Hword. simpl.
    assert (Hu : usernameSchema (username body) = false).
    { destruct (usernameSchema (username body)) eqn:Hs; [|reflexivity].
      apply usernameSchema_plain in Hs as [_ Hall]. congruence. }
    rewrite Hu, andb_false_r. reflexivity.
Qed.

(** X29.  [loginUser] succeeds exactly when a user is stored under the
    name, is not deleted, and [bcrypt.compare] accepts the password against
    the stored hash; it then returns that user with the two tokens made
    from the user's id and name.  Every failure is the same error,
    "Invalid credentials": an unknown name, a deleted account and a wrong
    password cannot be told apart. *)
Theorem loginUser_credentials
        (crypto : Crypto) (users : gmap string User) (name pass : string) :
  (forall l,
      loginUser crypto users name pass = Ok l
      <-> exists u,
            users !! name = Some u
            /\ u_isDeleted u = false
            /\ compare crypto pass (u_password u) = true
            /\ l = {| user := u;
                      accessToken := generateAccessToken crypto (u_id u) (u_username u);
                      refreshToken := generateRefreshToken crypto (u_id u) (u_username u) |})
  /\ (forall e, loginUser crypto users name pass = Err e ->
                e = Error "Invalid credentials").
Proof.
  unfold loginUser. split.
  - intros l. destruct (users !! name) as [u|].
    + destruct (u_isDeleted u) eqn:Hdel.
      * split; [discriminate|]. intros [u' [Heq [Hd _]]]. inversion Heq; subst. congruence.
      * destruct (compare crypto pass (u_password u)) eqn:Hcmp; simpl.
        -- split.
           ++ intros H. inversion H; subst. exists u. auto.
           ++ intros [u' [Heq [_ [_ ->]]]]. inversion Heq; subst. reflexivity.
        -- split; [discriminate|].
           intros [u' [Heq [_ [Hc _]]]]. inversion Heq; subst. congruence.
    + split; [discriminate|]. intros [u' [Heq _]]. discriminate.
  - intros e. destruct (users !! name) as [u|]; [|intros H; inversion H; reflexivity].
    destruct (u_isDeleted u); [intros H; inversion H; reflexivity|].
    destruct (compare crypto pass (u_password u)); simpl; intros H; inversion H.
    reflexivity.
Qed.

End AccountExtra.
